(** * A shallow embedding of [backend/server.py]

    The back end is a FastAPI application: Google OAuth2 login, JWT session
    tokens, a profile API over a MongoDB [users] collection, and a status
    log over a [status_checks] collection.

    Python dictionaries and MongoDB documents are finite maps from field
    names to values; a collection is the list of its documents in natural
    (insertion) order.  Naive UTC datetimes are integers counting
    microseconds since the epoch.  Reads of the clock, fresh UUIDs and the
    answers of the identity provider are explicit inputs of the handlers,
    and the collections are threaded through them as state. *)

From Stdlib Require Import ZArith Ascii String.
From stdpp Require Import gmap strings list fin_maps pretty.

Open Scope Z_scope.
Open Scope string_scope.

(** ** Values *)

(** The Python values that flow through the program: the JSON scalars,
    datetimes, and JSON arrays and objects, which are kept as their JSON
    text in its compact form and are taken to hold what the driver can
    store.  JSON numbers with a fraction or an exponent are outside the
    model. *)
Inductive value : Type :=
  | VNone
  | VBool (b : bool)
  | VInt (n : Z)
  | VStr (s : string)
  | VDatetime (us : Z)
  | VOther (json_text : string).

#[global] Instance value_eq_dec : EqDecision value.
Proof. solve_decision. Defined.

Abbreviation dict := (gmap string value).

(** The truth value of a Python value, as [not v] and [if v] take it. *)
Definition truthy (v : value) : bool :=
  match v with
  | VNone => false
  | VBool b => b
  | VInt n => negb (bool_decide (n = 0))
  | VStr s => negb (bool_decide (s = ""))
  | VDatetime _ => true
  | VOther json_text =>
      negb (bool_decide (json_text = "[]" \/ json_text = "{}"))
  end.

(** The exceptions that the program raises or lets through: FastAPI's
    [HTTPException] and [RequestValidationError], [KeyError], and any
    other exception by the name of its class and its message. *)
Inductive exn : Type :=
  | HTTPException (status_code : nat) (detail : string)
  | RequestValidationError (errors : string)
  | KeyError (key : string)
  | Error (cls msg : string).

(** [str(e)] *)
Definition str_exn (e : exn) : string :=
  match e with
  | HTTPException status_code detail => pretty status_code +:+ ": " +:+ detail
  | RequestValidationError errors => errors
  | KeyError key => "'" +:+ key +:+ "'"
  | Error _ msg => msg
  end.

Definition TypeError : string -> exn := Error "TypeError".
Definition IndexError : string -> exn := Error "IndexError".
Definition ValidationError : string -> exn := Error "ValidationError".
Definition OverflowError : string -> exn := Error "OverflowError".

(** [d[k]], where a missing key raises [KeyError], and [d.get(k, dflt)]. *)
Definition getitem (d : dict) (k : string) : exn + value :=
  match d !! k with
  | Some v => inr v
  | None => inl (KeyError k)
  end.

Definition get_default (d : dict) (k : string) (dflt : value) : value :=
  default dflt (d !! k).

(** ** The document store *)

(** A document holds the fields that the program writes.  The [_id] that
    the driver adds to every stored document is left out, as nothing in
    the program reads it; it is the reason why a stored document is never
    an empty dictionary.

    BSON keeps datetimes with millisecond precision: the driver drops the
    microseconds of a datetime it writes. *)
Definition bson_datetime (us : Z) : Z := us / 1000 * 1000.

Definition bson_value (v : value) : value :=
  match v with
  | VDatetime us => VDatetime (bson_datetime us)
  | _ => v
  end.

Definition bson_doc (d : dict) : dict := bson_value <$> d.

(** BSON has no integer beyond 8 bytes: for any other the driver raises
    [OverflowError] while it encodes the command, before anything reaches
    the server. *)
Definition bson_encodable (v : value) : Prop :=
  match v with
  | VInt n => - 2 ^ 63 <= n < 2 ^ 63
  | _ => True
  end.

#[global] Instance bson_encodable_dec v : Decision (bson_encodable v).
Proof. destruct v; simpl; apply _. Defined.

Definition bson_encodable_doc (d : dict) : Prop :=
  map_Forall (fun _ v => bson_encodable v) d.

#[global] Instance bson_encodable_doc_dec d : Decision (bson_encodable_doc d).
Proof. unfold bson_encodable_doc. apply _. Defined.

Definition bson_overflow : exn :=
  OverflowError "MongoDB can only handle up to 8-byte ints".

(** An equality condition [{k: v}] of a query.  A condition on [null]
    also selects the documents that lack the field. *)
Definition field_matches (stored : option value) (v : value) : Prop :=
  match v with
  | VNone => stored = None \/ stored = Some VNone
  | _ => stored = Some v
  end.

#[global] Instance field_matches_dec stored v : Decision (field_matches stored v).
Proof. destruct v; simpl; apply _. Defined.

(** A query document is a conjunction of equality conditions. *)
Definition doc_matches (q d : dict) : Prop :=
  map_Forall (fun k v => field_matches (d !! k) v) q.

#[global] Instance doc_matches_dec q d : Decision (doc_matches q d).
Proof. unfold doc_matches. apply _. Defined.

Abbreviation collection := (list dict).

(** [find_one(q)]: the first matching document in natural order.  The
    driver encodes the query as it encodes a document. *)
Definition find_one (q : dict) (coll : collection) : option dict :=
  snd <$> list_find (doc_matches (bson_doc q)) coll.

(** [update_one(q, {"$set": upd}, upsert=...)]: the first matching
    document gets the fields of [upd]; without a match an upsert inserts
    the fields of the query overridden by those of [upd]. *)
Definition update_one (q upd : dict) (upsert : bool) (coll : collection)
  : collection :=
  match list_find (doc_matches (bson_doc q)) coll with
  | Some (i, d) => <[i := bson_doc upd ∪ d]> coll
  | None => if upsert then coll ++ [bson_doc upd ∪ bson_doc q] else coll
  end.

(** [insert_one(d)] appends to the collection. *)
Definition insert_one (d : dict) (coll : collection) : collection :=
  coll ++ [bson_doc d].

(** [find().to_list(n)]: the first [n] documents in natural order. *)
Definition find_to_list (n : nat) (coll : collection) : list dict :=
  take n coll.

(** [count_documents(q)]; the program never calls it, the properties do. *)
Definition count_documents (q : dict) (coll : collection) : nat :=
  length (filter (doc_matches (bson_doc q)) coll).

(** ** Strings *)

(** [s.startswith(p)] *)
Fixpoint startswith (s p : string) {struct p} : bool :=
  match p, s with
  | EmptyString, _ => true
  | String a p', String b s' => Ascii.eqb a b && startswith s' p'
  | String _ _, EmptyString => false
  end.

(** [s.split(sep)] for a one-character separator. *)
Fixpoint split (sep : ascii) (s : string) : list string :=
  match s with
  | EmptyString => [EmptyString]
  | String c s' =>
      if Ascii.eqb c sep then EmptyString :: split sep s'
      else match split sep s' with
           | hd :: tl => String c hd :: tl
           | [] => [String c EmptyString]
           end
  end.

(** [s.split(sep, 1)] and [s.rsplit(sep, 1)] unpacked into two names:
    [None] stands for the [ValueError] of unpacking a single element. *)
Fixpoint split_first (sep : ascii) (s : string) : option (string * string) :=
  match s with
  | EmptyString => None
  | String c s' =>
      if Ascii.eqb c sep then Some (EmptyString, s')
      else match split_first sep s' with
           | Some (a, b) => Some (String c a, b)
           | None => None
           end
  end.

Fixpoint rsplit_last (sep : ascii) (s : string) : option (string * string) :=
  match s with
  | EmptyString => None
  | String c s' =>
      match rsplit_last sep s' with
      | Some (a, b) => Some (String c a, b)
      | None => if Ascii.eqb c sep then Some (EmptyString, s') else None
      end
  end.

(** [c in s] *)
Fixpoint has_char (c : ascii) (s : string) : bool :=
  match s with
  | EmptyString => false
  | String x s' => Ascii.eqb x c || has_char c s'
  end.

(** A decimal literal with an optional sign, the plainest of the spellings
    of an integer; the test double of the libraries reads these and no
    others. *)
Definition digit_of (c : ascii) : option Z :=
  let n := Z.of_N (N_of_ascii c) in
  if bool_decide (48 <= n <= 57) then Some (n - 48) else None.

Fixpoint parse_digits (acc : Z) (s : string) : option Z :=
  match s with
  | EmptyString => Some acc
  | String c s' =>
      match digit_of c with
      | Some d => parse_digits (10 * acc + d) s'
      | None => None
      end
  end.

Definition parse_nat (s : string) : option Z :=
  match s with
  | EmptyString => None
  | _ => parse_digits 0 s
  end.

Definition parse_int (s : string) : option Z :=
  match s with
  | String "-" s' => Z.opp <$> parse_nat s'
  | String "+" s' => parse_nat s'
  | _ => parse_nat s
  end.

(** ** Session tokens (PyJWT, algorithm HS256) *)

(** What the model takes from the libraries as given: base64url without
    padding, JSON text of an object, HMAC-SHA256 (key, then message), and
    the two ways in which a string is read as an integer: Python's
    [int(s)], which PyJWT applies to the time claims, and the lax integer
    validation of pydantic, each with [None] where the library refuses
    the string. *)
Class Codec : Type := {
  base64url_encode : string -> string;
  base64url_decode : string -> option string;
  json_dumps : dict -> string;
  json_loads : string -> option dict;
  hmac_sha256 : string -> string -> string;
  python_int : string -> option Z;
  pydantic_int : string -> option Z
}.

(** The errors of [jwt.decode]; all of them are [InvalidTokenError]s. *)
Inductive jwt_error : Type :=
  | ExpiredSignatureError
  | DecodeError
  | InvalidSignatureError
  | InvalidAlgorithmError
  | ImmatureSignatureError
  | InvalidIssuedAtError
  | InvalidAudienceError
  | InvalidSubjectError
  | InvalidJTIError.

(** [calendar.timegm(dt.utctimetuple())]: whole seconds since the epoch. *)
Definition timegm (us : Z) : Z := us / 1000000.

(** [timedelta(hours=h)] in microseconds. *)
Definition timedelta_hours (h : Z) : Z := h * 3600 * 1000000.

Definition time_claims : list string := ["exp"; "iat"; "nbf"].

(** [jwt.encode] turns a datetime under a time claim into a NumericDate. *)
Definition numeric_date (k : string) (v : value) : value :=
  match v with
  | VDatetime us =>
      if bool_decide (k ∈ time_claims) then VInt (timegm us) else v
  | _ => v
  end.

Definition jwt_payload (payload : dict) : dict :=
  map_imap (fun k v => Some (numeric_date k v)) payload.

Definition json_serializable (v : value) : Prop :=
  match v with
  | VDatetime _ => False
  | _ => True
  end.

#[global] Instance json_serializable_dec v : Decision (json_serializable v).
Proof. destruct v; simpl; apply _. Defined.

Definition jwt_header : dict := {[ "alg" := VStr "HS256"; "typ" := VStr "JWT" ]}.

Section Tokens.
Context {codec : Codec}.

Definition segment (d : dict) : string := base64url_encode (json_dumps d).

Definition load_segment (seg : string) : option dict :=
  base64url_decode seg ≫= json_loads.

Definition signing_input_of (payload : dict) : string :=
  segment jwt_header +:+ "." +:+ segment payload.

(** [jwt.encode(payload, key, algorithm="HS256")] *)
Definition jwt_encode (payload : dict) (key : string) : exn + string :=
  let payload := jwt_payload payload in
  if decide (map_Forall (fun _ v => json_serializable v) payload) then
    let signing_input := signing_input_of payload in
    inr (signing_input +:+ "." +:+
         base64url_encode (hmac_sha256 key signing_input))
  else inl (TypeError "Object of type datetime is not JSON serializable").

(** [int(v)] on a value of a payload; [None] where the conversion fails
    and PyJWT reports the claim as malformed. *)
Definition int_of_value (v : value) : option Z :=
  match v with
  | VInt n => Some n
  | VBool b => Some (if b then 1 else 0)
  | VStr s => python_int s
  | _ => None
  end.

(** The checks of the registered claims in [jwt.decode], called without
    [audience], [issuer] or [subject] and with the default options.  A
    claim is checked only when the payload carries it; a time claim is
    in whole seconds and is compared with the clock. *)
Definition validate_iat (payload : dict) (now : Z) : option jwt_error :=
  match payload !! "iat" with
  | None => None
  | Some v =>
      match int_of_value v with
      | None => Some InvalidIssuedAtError
      | Some iat =>
          if bool_decide (now < iat * 1000000)
          then Some ImmatureSignatureError else None
      end
  end.

Definition validate_nbf (payload : dict) (now : Z) : option jwt_error :=
  match payload !! "nbf" with
  | None => None
  | Some v =>
      match int_of_value v with
      | None => Some DecodeError
      | Some nbf =>
          if bool_decide (now < nbf * 1000000)
          then Some ImmatureSignatureError else None
      end
  end.

Definition validate_exp (payload : dict) (now : Z) : option jwt_error :=
  match payload !! "exp" with
  | None => None
  | Some v =>
      match int_of_value v with
      | None => Some DecodeError
      | Some exp =>
          if bool_decide (exp * 1000000 <= now)
          then Some ExpiredSignatureError else None
      end
  end.

(** No audience is expected, so a token that names one is refused. *)
Definition validate_aud (payload : dict) : option jwt_error :=
  match payload !! "aud" with
  | None => None
  | Some v => if truthy v then Some InvalidAudienceError else None
  end.

Definition validate_str (k : string) (e : jwt_error) (payload : dict)
  : option jwt_error :=
  match payload !! k with
  | None | Some (VStr _) => None
  | Some _ => Some e
  end.

Definition validate_sub : dict -> option jwt_error :=
  validate_str "sub" InvalidSubjectError.

Definition validate_jti : dict -> option jwt_error :=
  validate_str "jti" InvalidJTIError.

Definition or_else {A} (x y : option A) : option A :=
  match x with
  | Some _ => x
  | None => y
  end.

(** The checks in the order in which PyJWT runs them; the first error is
    the one raised. *)
Definition validate_claims (payload : dict) (now : Z) : option jwt_error :=
  or_else (validate_iat payload now)
    (or_else (validate_nbf payload now)
       (or_else (validate_exp payload now)
          (or_else (validate_aud payload)
             (or_else (validate_sub payload) (validate_jti payload))))).

(** The parsing step of [jwt.decode]: the signing input, the header, the
    text of the payload and the signature of a three-segment token. *)
Definition jwt_load (token : string)
  : option (string * dict * string * string) :=
  '(signing_input, crypto_segment) ← rsplit_last "." token;
  '(header_segment, payload_segment) ← split_first "." signing_input;
  header ← load_segment header_segment;
  payload ← base64url_decode payload_segment;
  signature ← base64url_decode crypto_segment;
  Some (signing_input, header, payload, signature).

Definition verify_signature (key signing_input : string) (header : dict)
    (signature : string) : option jwt_error :=
  if negb (bool_decide (header !! "alg" = Some (VStr "HS256")))
  then Some InvalidAlgorithmError
  else if negb (bool_decide (signature = hmac_sha256 key signing_input))
  then Some InvalidSignatureError
  else None.

(** [jwt.decode(token, key, algorithms=["HS256"])] at clock reading [now]:
    the structure of the token, a header that asks for a detached payload
    (none is given), the algorithm named by the header, the signature,
    the payload as a JSON object, and the registered claims. *)
Definition jwt_decode (token key : string) (now : Z) : jwt_error + dict :=
  match jwt_load token with
  | None => inl DecodeError
  | Some (signing_input, header, payload_text, signature) =>
      if bool_decide (header !! "b64" = Some (VBool false))
      then inl DecodeError
      else
        match verify_signature key signing_input header signature with
        | Some e => inl e
        | None =>
            match json_loads payload_text with
            | None => inl DecodeError
            | Some payload =>
                match validate_claims payload now with
                | Some e => inl e
                | None => inr payload
                end
            end
        end
  end.

Variable SECRET_KEY : string.

(** [create_access_token(data)] at clock reading [utcnow]. *)
Definition create_access_token (utcnow : Z) (data : dict) : exn + string :=
  let to_encode := data in
  let expire := utcnow + timedelta_hours 24 in
  let to_encode := {[ "exp" := VDatetime expire ]} ∪ to_encode in
  jwt_encode to_encode SECRET_KEY.

(** [verify_token(token)] at clock reading [now]. *)
Definition verify_token (token : string) (now : Z) : exn + dict :=
  match jwt_decode token SECRET_KEY now with
  | inr payload => inr payload
  | inl ExpiredSignatureError => inl (HTTPException 401 "Token expired")
  | inl _ => inl (HTTPException 401 "Invalid token")
  end.

End Tokens.

(** ** The pydantic models *)

(** Field validation in pydantic's default (lax) mode.  A string field
    takes a string.  An integer field takes an integer, a boolean, or a
    string that pydantic reads as an integer.  A datetime field takes a
    datetime, which is what the documents written by this program hold. *)
Definition str_validator (v : value) : option string :=
  match v with
  | VStr s => Some s
  | _ => None
  end.

Definition int_validator {codec : Codec} (v : value) : option Z :=
  match v with
  | VInt n => Some n
  | VBool b => Some (if b then 1 else 0)
  | VStr s => pydantic_int s
  | _ => None
  end.

Definition datetime_validator (v : value) : option Z :=
  match v with
  | VDatetime us => Some us
  | _ => None
  end.

(** [Optional[T]]: [None] is accepted as it is. *)
Definition optional {A} (validator : value -> option A) (v : value)
  : option (option A) :=
  match v with
  | VNone => Some None
  | _ => Some <$> validator v
  end.

(** A field of a model built from a dictionary: validated when present,
    its default otherwise ([None] for a required field). *)
Definition model_field {A} (validator : value -> option A) (d : dict)
    (k : string) (dflt : option A) : option A :=
  match d !! k with
  | Some v => validator v
  | None => dflt
  end.

(** What the default factories produce while one model is built: the
    string of [uuid.uuid4] and two readings of [datetime.utcnow]. *)
Record factories : Type := {
  fresh_uuid4 : string;
  fresh_utcnow : Z;
  fresh_utcnow_again : Z
}.

Module UserProfile.
Record t : Type := mk {
  id : string;
  google_id : string;
  email : string;
  name : string;
  picture : string;
  about_me : string;
  age : option Z;
  created_at : Z;
  last_login : Z
}.

(** The constructor call that unpacks a stored document into the
    keyword arguments of [UserProfile]. *)
Definition of_dict {codec : Codec} (dflt : factories) (user : dict)
  : exn + t :=
  let built :=
    id ← model_field str_validator user "id" (Some (fresh_uuid4 dflt));
    google_id ← model_field str_validator user "google_id" None;
    email ← model_field str_validator user "email" None;
    name ← model_field str_validator user "name" None;
    picture ← model_field str_validator user "picture" (Some "");
    about_me ← model_field str_validator user "about_me" (Some "");
    age ← model_field (optional int_validator) user "age" (Some None);
    created_at ← model_field datetime_validator user "created_at"
                   (Some (fresh_utcnow dflt));
    last_login ← model_field datetime_validator user "last_login"
                   (Some (fresh_utcnow_again dflt));
    Some (mk id google_id email name picture about_me age
             created_at last_login) in
  match built with
  | Some u => inr u
  | None => inl (ValidationError "validation errors for UserProfile")
  end.
End UserProfile.

Module UserProfileUpdate.
(** Every field is optional; the outer [option] records whether the
    field was given at all ([exclude_unset]). *)
Record t : Type := mk {
  name : option (option string);
  about_me : option (option string);
  age : option (option Z)
}.

Definition given {A} (validator : value -> option A) (body : dict)
    (k : string) : option (option (option A)) :=
  match body !! k with
  | Some v => Some <$> optional validator v
  | None => Some None
  end.

(** Validation of the request body; [None] is a validation error. *)
Definition of_body {codec : Codec} (body : option dict) : option t :=
  body ← body;
  name ← given str_validator body "name";
  about_me ← given str_validator body "about_me";
  age ← given int_validator body "age";
  Some (mk name about_me age).

Definition put {A} (k : string) (inj : A -> value)
    (f : option (option A)) (d : dict) : dict :=
  match f with
  | Some o => <[k := from_option inj VNone o]> d
  | None => d
  end.

(** [profile_update.dict(exclude_unset=True)] *)
Definition dict_exclude_unset (u : t) : dict :=
  put "name" VStr (name u)
    (put "about_me" VStr (about_me u)
       (put "age" VInt (age u) ∅)).
End UserProfileUpdate.

Module StatusCheck.
Record t : Type := mk {
  id : string;
  client_name : string;
  timestamp : Z
}.

(** The constructor call that unpacks a stored document into the
    keyword arguments of [StatusCheck]. *)
Definition of_dict (dflt : factories) (d : dict) : option t :=
  id ← model_field str_validator d "id" (Some (fresh_uuid4 dflt));
  client_name ← model_field str_validator d "client_name" None;
  timestamp ← model_field datetime_validator d "timestamp"
                (Some (fresh_utcnow dflt));
  Some (mk id client_name timestamp).

(** [status_obj.dict()] *)
Definition dict (s : t) : dict :=
  {[ "id" := VStr (id s);
     "client_name" := VStr (client_name s);
     "timestamp" := VDatetime (timestamp s) ]}.
End StatusCheck.

(** ** Handlers *)

(** A handler reads and writes a collection and returns a value or raises. *)
Definition handler (A : Type) : Type := collection -> (exn + A) * collection.

Definition ret {A} (a : A) : handler A := fun db => (inr a, db).
Definition raise {A} (e : exn) : handler A := fun db => (inl e, db).
Definition lift {A} (r : exn + A) : handler A := fun db => (r, db).

Definition bind {A B} (m : handler A) (k : A -> handler B) : handler B :=
  fun db =>
    match m db with
    | (inr a, db') => k a db'
    | (inl e, db') => (inl e, db')
    end.

Definition try_except {A} (m : handler A) (h : exn -> handler A) : handler A :=
  fun db =>
    match m db with
    | (inr a, db') => (inr a, db')
    | (inl e, db') => h e db'
    end.

Notation "'let*' x ':=' m 'in' k" := (bind m (fun x => k))
  (at level 10, x pattern, m at level 100, k at level 200).

(** The responses that a handler builds itself.  [RedirectResponse]
    holds the URL as the program passes it; Starlette percent-encodes it
    into the [Location] header of the response it sends. *)
Inductive response : Type :=
  | RedirectResponse (url : string)
  | JSONResponse (status_code : nat) (content : string).

(** The status of the HTTP response that FastAPI sends for the outcome of
    a JSON route. *)
Definition status_of {A} (r : exn + A) : nat :=
  match r with
  | inr _ => 200
  | inl (HTTPException status_code _) => status_code
  | inl (RequestValidationError _) => 422
  | inl _ => 500
  end.

(** The body of a request as FastAPI finds it, before it runs any
    dependency: bytes that cannot be read at all (the JSON reader raises
    something other than [JSONDecodeError]), bytes that are sent as JSON
    and are not JSON, or a body that reaches validation: a JSON object,
    or [None] for no body at all and for a body that is no object. *)
Inductive request_body : Type :=
  | body_unreadable
  | body_malformed
  | body_json (body : option dict).

(** What one run of the login callback gets from outside: the outcome of
    [authorize_access_token] followed by [token.get("userinfo")], the
    fresh UUID, the three readings of the clock, and the exception that
    the driver raises on the upsert for a reason of its own (no server,
    a lost connection), if any. *)
Record login_env : Type := {
  oauth_outcome : exn + option dict;
  uuid4 : string;
  utcnow_created_at : Z;
  utcnow_last_login : Z;
  utcnow_token : Z;
  users_fault : option exn
}.

(** What one authenticated request reads from outside: the clock of the
    token check and the factory values for the two models it builds. *)
Record request_env : Type := {
  jwt_now : Z;
  dependency_factories : factories;
  handler_factories : factories
}.

Section Handlers.
Context {codec : Codec}.
Variable SECRET_KEY : string.
Variable FRONTEND_URL : option string.

Definition frontend_url : string :=
  default "https://dfe70bfd-0f3f-4410-b7d9-a3ddbd0a6aab.preview.emergentagent.com"
          FRONTEND_URL.

(** [get_current_user(request)]; [authorization] is the header.  A
    document that [find_one] returns is never falsy, as it carries its
    [_id]. *)
Definition get_current_user (env : request_env)
    (authorization : option string) : handler UserProfile.t :=
  let auth_header := authorization in
  match auth_header with
  | None =>
      raise (HTTPException 401 "Missing or invalid authorization header")
  | Some auth_header =>
      if bool_decide (auth_header = "")
         || negb (startswith auth_header "Bearer ")
      then raise (HTTPException 401 "Missing or invalid authorization header")
      else
        match split " " auth_header !! 1%nat with
        | None => raise (IndexError "list index out of range")
        | Some token =>
            let* payload := lift (verify_token SECRET_KEY token (jwt_now env)) in
            let google_id := get_default payload "sub" VNone in
            fun db =>
              match find_one {[ "google_id" := google_id ]} db with
              | None => raise (HTTPException 404 "User not found") db
              | Some user =>
                  lift (UserProfile.of_dict (dependency_factories env) user) db
              end
        end
  end.

(** [db.users.update_one]: the driver reaches the server, encodes the
    command, and the server applies it. *)
Definition users_update_one (fault : option exn) (q upd : dict)
    (upsert : bool) : handler unit :=
  fun db =>
    match fault with
    | Some e => (inl e, db)
    | None =>
        if decide (bson_encodable_doc q /\ bson_encodable_doc upd)
        then (inr tt, update_one q upd upsert db)
        else (inl bson_overflow, db)
    end.

(** The fields that the callback writes for a login. *)
Definition user_data (env : login_env) (user_info : dict)
    (sub email name : value) : dict :=
  {[ "id" := VStr (uuid4 env);
     "google_id" := sub;
     "email" := email;
     "name" := name;
     "picture" := get_default user_info "picture" (VStr "");
     "about_me" := VStr "";
     "age" := VNone;
     "created_at" := VDatetime (utcnow_created_at env);
     "last_login" := VDatetime (utcnow_last_login env) ]}.

Definition callback_url (access_token : string) : string :=
  frontend_url +:+ "/auth/callback?token=" +:+ access_token.

Definition error_url (message : string) : string :=
  frontend_url +:+ "/auth/error?message=" +:+ message.

Definition google_auth_try (env : login_env) : handler response :=
  let* user_info := lift (oauth_outcome env) in
  match user_info with
  | None =>
      raise (HTTPException 400 "Failed to get user info from Google")
  | Some user_info =>
      if decide (user_info = ∅)
      then raise (HTTPException 400 "Failed to get user info from Google")
      else
        let* sub := lift (getitem user_info "sub") in
        let* email := lift (getitem user_info "email") in
        let* name := lift (getitem user_info "name") in
        let user_data := user_data env user_info sub email name in
        let* _ := users_update_one (users_fault env)
                    {[ "google_id" := sub ]} user_data true in
        let* access_token :=
          lift (create_access_token SECRET_KEY (utcnow_token env)
                  {[ "sub" := sub; "email" := email; "name" := name ]}) in
        ret (RedirectResponse (callback_url access_token))
  end.

(** [GET /auth/google] *)
Definition google_auth (env : login_env) : handler response :=
  try_except (google_auth_try env)
    (fun e => ret (RedirectResponse (error_url (str_exn e)))).

(** [GET /auth/me] *)
Definition get_current_user_profile (current_user : UserProfile.t)
  : handler UserProfile.t :=
  ret current_user.

(** [PUT /auth/profile], the function under the route. *)
Definition update_user_profile (dflt : factories)
    (profile_update : UserProfileUpdate.t) (current_user : UserProfile.t)
  : handler UserProfile.t :=
  let update_data := UserProfileUpdate.dict_exclude_unset profile_update in
  if decide (update_data = ∅) then ret current_user
  else
    let q : dict :=
      {[ "google_id" := VStr (UserProfile.google_id current_user) ]} in
    let* _ := users_update_one None q update_data false in
    fun db =>
      match find_one q db with
      | Some updated_user => (UserProfile.of_dict dflt updated_user, db)
      | None => (inl (TypeError "argument after ** must be a mapping"), db)
      end.

(** The routes as FastAPI runs them: it reads the body, if the route
    takes one, then runs the dependency, then validates the body, then
    calls the function.  A body that cannot be read ends the request
    before the dependency is run. *)
Definition read_body {A} (body : request_body)
    (route : option dict -> handler A) : handler A :=
  match body with
  | body_unreadable =>
      raise (HTTPException 400 "There was an error parsing the body")
  | body_malformed => raise (RequestValidationError "JSON decode error")
  | body_json body => route body
  end.

Definition get_auth_me (env : request_env) (authorization : option string)
  : handler UserProfile.t :=
  let* current_user := get_current_user env authorization in
  get_current_user_profile current_user.

Definition put_auth_profile_as (dflt : factories)
    (current_user : UserProfile.t) (body : option dict)
  : handler UserProfile.t :=
  match UserProfileUpdate.of_body body with
  | None => raise (RequestValidationError "validation errors in body")
  | Some profile_update =>
      update_user_profile dflt profile_update current_user
  end.

Definition put_auth_profile (env : request_env)
    (authorization : option string) (body : request_body)
  : handler UserProfile.t :=
  read_body body (fun body =>
    let* current_user := get_current_user env authorization in
    put_auth_profile_as (handler_factories env) current_user body).

(** [POST /status], the function under the route with the validation of
    its input. *)
Definition create_status_check (fresh : factories) (input : option dict)
  : handler StatusCheck.t :=
  match input ≫= fun d => model_field str_validator d "client_name" None with
  | None => raise (RequestValidationError "validation errors in body")
  | Some client_name =>
      let status_obj :=
        StatusCheck.mk (fresh_uuid4 fresh) client_name
                       (fresh_utcnow fresh) in
      fun db => (inr status_obj, insert_one (StatusCheck.dict status_obj) db)
  end.

(** [POST /status], the route. *)
Definition post_status_check (fresh : factories) (body : request_body)
  : handler StatusCheck.t :=
  read_body body (create_status_check fresh).

(** The list comprehension of [GET /status]: every document becomes a
    model; [fresh i] holds the factory values for the [i]-th of them. *)
Fixpoint status_models (fresh : nat -> factories) (i : nat)
    (status_checks : list dict) : option (list StatusCheck.t) :=
  match status_checks with
  | [] => Some []
  | status_check :: rest =>
      s ← StatusCheck.of_dict (fresh i) status_check;
      l ← status_models fresh (S i) rest;
      Some (s :: l)
  end.

(** [GET /status] *)
Definition get_status_checks (fresh : nat -> factories)
  : handler (list StatusCheck.t) :=
  fun db =>
    let status_checks := find_to_list 1000 db in
    match status_models fresh 0 status_checks with
    | Some l => (inr l, db)
    | None => (inl (ValidationError "validation errors for StatusCheck"), db)
    end.

End Handlers.

(** * The vocabulary of the properties *)

Section Vocabulary.
Context {codec : Codec}.
Variable SECRET_KEY : string.
Variable FRONTEND_URL : option string.

(** The ways in which a token is unacceptable at clock reading [now]:
    its structure does not parse; its payload is no JSON object; its
    header asks for a detached payload, names another algorithm, or its
    signature is not the HMAC of the signing input under the secret; its
    expiry is no integer, or is not after [now]. *)
Inductive invalid_token (now : Z) (token : string) : Prop :=
  | bad_structure :
      jwt_load token = None -> invalid_token now token
  | bad_payload si header text sig :
      jwt_load token = Some (si, header, text, sig) ->
      json_loads text = None ->
      invalid_token now token
  | bad_signature si header text sig :
      jwt_load token = Some (si, header, text, sig) ->
      header !! "b64" = Some (VBool false) \/
        header !! "alg" <> Some (VStr "HS256") \/
        sig <> hmac_sha256 SECRET_KEY si ->
      invalid_token now token
  | bad_expiry si header text sig payload v :
      jwt_load token = Some (si, header, text, sig) ->
      json_loads text = Some payload ->
      payload !! "exp" = Some v ->
      int_of_value v = None ->
      invalid_token now token
  | expired si header text sig payload v exp :
      jwt_load token = Some (si, header, text, sig) ->
      json_loads text = Some payload ->
      payload !! "exp" = Some v ->
      int_of_value v = Some exp ->
      exp * 1000000 <= now ->
      invalid_token now token.

(** A token is correctly signed for [payload] when it parses into three
    segments, its header names HS256 and asks for no detached payload,
    its signature is the HMAC of the signing input under the secret, and
    its second segment holds [payload]. *)
Definition correctly_signed (token : string) (payload : dict) : Prop :=
  exists si header text sig,
    jwt_load token = Some (si, header, text, sig) /\
    header !! "b64" <> Some (VBool false) /\
    header !! "alg" = Some (VStr "HS256") /\
    sig = hmac_sha256 SECRET_KEY si /\
    json_loads text = Some payload.

(** The time claim [k] of a payload, if there is one, is an integer that
    is not after the clock reading. *)
Definition not_after (payload : dict) (k : string) (now : Z) : Prop :=
  forall v, payload !! k = Some v ->
    exists n, int_of_value v = Some n /\ n * 1000000 <= now.

(** The claim [k] of a payload, if there is one, is a string. *)
Definition string_claim (payload : dict) (k : string) : Prop :=
  forall v, payload !! k = Some v -> exists s, v = VStr s.

(** The registered claims other than the expiry let the payload pass at
    clock reading [now]: it was not issued in the future and is valid
    already, it names no audience, and its subject and token id, if any,
    are strings. *)
Definition claims_pass (payload : dict) (now : Z) : Prop :=
  not_after payload "iat" now /\
  not_after payload "nbf" now /\
  (forall v, payload !! "aud" = Some v -> truthy v = false) /\
  string_claim payload "sub" /\
  string_claim payload "jti".

(** The primitives round-trip on the pieces of the token for [claims]:
    each of its three segments decodes to what was encoded and holds no
    dot of its own. *)
Definition codec_round_trips (claims : dict) : Prop :=
  let signature := hmac_sha256 SECRET_KEY (signing_input_of claims) in
  load_segment (segment jwt_header) = Some jwt_header /\
  load_segment (segment claims) = Some claims /\
  base64url_decode (base64url_encode signature) = Some signature /\
  has_char "." (segment jwt_header) = false /\
  has_char "." (segment claims) = false /\
  has_char "." (base64url_encode signature) = false.

(** The requests that the dependency turns away, with the status it
    answers: no header; a header without the scheme; a token that is
    invalid or expired; a token that verifies for a subject that no
    document of [users] matches. *)
Inductive rejected (env : request_env) (db : collection)
  : option string -> nat -> Prop :=
  | header_missing :
      rejected env db None 401
  | header_not_bearer h :
      startswith h "Bearer " = false ->
      rejected env db (Some h) 401
  | token_invalid h token :
      startswith h "Bearer " = true ->
      split " " h !! 1%nat = Some token ->
      invalid_token (jwt_now env) token ->
      rejected env db (Some h) 401
  | subject_unmatched h token payload :
      startswith h "Bearer " = true ->
      split " " h !! 1%nat = Some token ->
      verify_token SECRET_KEY token (jwt_now env) = inr payload ->
      find_one {[ "google_id" := get_default payload "sub" VNone ]} db = None ->
      rejected env db (Some h) 404.

(** The subject id that the identity provider reports in this run. *)
Definition login_subject (env : login_env) : option value :=
  match oauth_outcome env with
  | inr (Some user_info) => user_info !! "sub"
  | _ => None
  end.

(** A callback succeeded when it answered with the redirect that carries
    a session token. *)
Definition login_succeeded (r : exn + response) : Prop :=
  exists access_token,
    r = inr (RedirectResponse (callback_url FRONTEND_URL access_token)).

(** The first claim among [sub], [email] and [name] that the profile
    information lacks. *)
Definition missing_claim (user_info : dict) : option string :=
  match user_info !! "sub", user_info !! "email", user_info !! "name" with
  | None, _, _ => Some "sub"
  | Some _, None, _ => Some "email"
  | Some _, Some _, None => Some "name"
  | Some _, Some _, Some _ => None
  end.

(** The failures of a callback, each with the exception it raises inside
    the handler: the provider or the state check refuses the exchange; the
    token carries no profile information; the profile lacks a claim; the
    driver raises on the upsert, for a reason of its own or because the
    profile holds an integer that BSON cannot hold; the session token
    cannot be encoded. *)
Inductive login_failure (env : login_env) : exn -> Prop :=
  | provider_error e :
      oauth_outcome env = inl e ->
      login_failure env e
  | no_user_info u :
      oauth_outcome env = inr u ->
      u = None \/ u = Some ∅ ->
      login_failure env (HTTPException 400 "Failed to get user info from Google")
  | claim_missing user_info k :
      oauth_outcome env = inr (Some user_info) ->
      user_info <> ∅ ->
      missing_claim user_info = Some k ->
      login_failure env (KeyError k)
  | store_fault user_info e :
      oauth_outcome env = inr (Some user_info) ->
      user_info <> ∅ ->
      missing_claim user_info = None ->
      users_fault env = Some e ->
      login_failure env e
  | store_overflow user_info sub email name :
      oauth_outcome env = inr (Some user_info) ->
      user_info <> ∅ ->
      user_info !! "sub" = Some sub ->
      user_info !! "email" = Some email ->
      user_info !! "name" = Some name ->
      users_fault env = None ->
      ~ bson_encodable_doc (user_data env user_info sub email name) ->
      login_failure env bson_overflow
  | token_failure user_info sub email name e :
      oauth_outcome env = inr (Some user_info) ->
      user_info <> ∅ ->
      user_info !! "sub" = Some sub ->
      user_info !! "email" = Some email ->
      user_info !! "name" = Some name ->
      users_fault env = None ->
      bson_encodable_doc (user_data env user_info sub email name) ->
      create_access_token SECRET_KEY (utcnow_token env)
        {[ "sub" := sub; "email" := email; "name" := name ]} = inl e ->
      login_failure env e.

End Vocabulary.

(** A [POST /status] request with the id and the timestamp generated for
    it, and a run of such requests from the empty collection, oldest
    first. *)
Definition post_status (db : collection) (req : factories * string)
  : collection :=
  snd (create_status_check req.1 (Some {[ "client_name" := VStr req.2 ]}) db).

Definition post_all (reqs : list (factories * string)) : collection :=
  foldl post_status [] reqs.

(** The record that the store gives back for a request. *)
Definition stored_status (req : factories * string) : StatusCheck.t :=
  StatusCheck.mk (fresh_uuid4 req.1) req.2
                 (bson_datetime (fresh_utcnow req.1)).

Definition status_doc (req : factories * string) : dict :=
  bson_doc (StatusCheck.dict
              (StatusCheck.mk (fresh_uuid4 req.1) req.2
                              (fresh_utcnow req.1))).

(** ** A test double for the libraries *)

Module Toy.
Definition claims : dict :=
  {[ "sub" := VStr "g-alice"; "email" := VStr "alice@example.com";
     "name" := VStr "Alice" ]}.

Definition claims_exp : dict := <[ "exp" := VInt 86401 ]> claims.

Definition claims_aud : dict := <[ "aud" := VStr "app" ]> claims.

Definition claims_null_exp : dict := <[ "exp" := VNone ]> claims.

Definition dumps (d : dict) : string :=
  if decide (d = jwt_header) then "H"
  else if decide (d = claims) then "P"
  else if decide (d = claims_exp) then "E"
  else if decide (d = claims_aud) then "A"
  else if decide (d = claims_null_exp) then "N"
  else "?".

Definition loads (s : string) : option dict :=
  if decide (s = "H") then Some jwt_header
  else if decide (s = "P") then Some claims
  else if decide (s = "E") then Some claims_exp
  else if decide (s = "A") then Some claims_aud
  else if decide (s = "N") then Some claims_null_exp
  else None.

Definition hmac (key msg : string) : string :=
  "mac-" +:+ key +:+ "-" +:+ pretty (String.length msg).

#[local] Instance codec : Codec := {|
  base64url_encode := fun s => s;
  base64url_decode := fun s => Some s;
  json_dumps := dumps;
  json_loads := loads;
  hmac_sha256 := hmac;
  python_int := parse_int;
  pydantic_int := parse_int
|}.

Definition secret : string := "s3cret".

Definition dflt : factories :=
  {| fresh_uuid4 := "00000000-0000-4000-8000-000000000000";
     fresh_utcnow := 0; fresh_utcnow_again := 0 |}.

Definition env (now : Z) : request_env :=
  {| jwt_now := now; dependency_factories := dflt; handler_factories := dflt |}.

Definition alice_doc : dict :=
  {[ "id" := VStr "u-1"; "google_id" := VStr "g-alice";
     "email" := VStr "alice@example.com"; "name" := VStr "Alice";
     "picture" := VStr "http://pic"; "about_me" := VStr "hello";
     "age" := VInt 41; "created_at" := VDatetime 1000000;
     "last_login" := VDatetime 2000000 ]}.

Definition alice : UserProfile.t :=
  UserProfile.mk "u-1" "g-alice" "alice@example.com" "Alice" "http://pic"
                 "hello" (Some 41) 1000000 2000000.

Definition login (now : Z) : login_env :=
  {| oauth_outcome := inr (Some claims);
     uuid4 := "u-2";
     utcnow_created_at := now; utcnow_last_login := now + 1;
     utcnow_token := now + 2;
     users_fault := None |}.
End Toy.

(** A thousand and one posts to the status log, and two logins of Alice
    over a store that already holds her profile. *)
Definition numbered_request (i : nat) : factories * string :=
  ({| fresh_uuid4 := "id-" +:+ pretty i;
      fresh_utcnow := Z.of_nat i * 1000;
      fresh_utcnow_again := 0 |},
   "client-" +:+ pretty i).

Definition many_requests : list (factories * string) :=
  numbered_request <$> seq 0 1001.

Definition first_login : (exn + response) * collection :=
  google_auth (codec:=Toy.codec) Toy.secret None (Toy.login 1000000)
              [Toy.alice_doc].

Definition second_login : (exn + response) * collection :=
  google_auth (codec:=Toy.codec) Toy.secret None (Toy.login 5000000)
              (snd first_login).

Definition alice_query : dict := {[ "google_id" := VStr "g-alice" ]}.

(** * The rest of the program *)

(** [POST /auth/logout] and [GET /]: no dependency and no parameter, so
    nothing of the request reaches them. *)
Definition logout : handler dict :=
  ret {[ "message" := VStr "Logged out successfully" ]}.

Definition root : handler dict :=
  ret {[ "message" := VStr "Hello World" ]}.

(** * More vocabulary *)

(** The identity provider answered with a profile that gives these
    strings as subject id, email and name, and this picture (the empty
    string when the profile has none). *)
Definition provider_profile (env : login_env)
    (sub email name picture : string) : Prop :=
  exists user_info,
    oauth_outcome env = inr (Some user_info) /\
    user_info !! "sub" = Some (VStr sub) /\
    user_info !! "email" = Some (VStr email) /\
    user_info !! "name" = Some (VStr name) /\
    get_default user_info "picture" (VStr "") = VStr picture.

(** The claims of the session token of a login, expiry included. *)
Definition session_claims (sub email name : string) (exp : Z) : dict :=
  <[ "exp" := VInt exp ]>
    {[ "sub" := VStr sub; "email" := VStr email; "name" := VStr name ]}.

(** The profile that a login writes. *)
Definition fresh_profile (env : login_env)
    (sub email name picture : string) : UserProfile.t :=
  UserProfile.mk (uuid4 env) sub email name picture "" None
    (bson_datetime (utcnow_created_at env))
    (bson_datetime (utcnow_last_login env)).

(** A request to one of the routes over [users], with what it reads from
    outside. *)
Inductive request : Type :=
  | GET_auth_google (env : login_env)
  | GET_auth_me (env : request_env) (authorization : option string)
  | PUT_auth_profile (env : request_env) (authorization : option string)
      (body : request_body)
  | POST_auth_logout.

Section Server.
Context {codec : Codec}.
Variable SECRET_KEY : string.
Variable FRONTEND_URL : option string.

(** The [users] collection after one request, and after a run of
    requests served one after the other. *)
Definition serve (users : collection) (req : request) : collection :=
  match req with
  | GET_auth_google env =>
      snd (google_auth SECRET_KEY FRONTEND_URL env users)
  | GET_auth_me env authorization =>
      snd (get_auth_me SECRET_KEY env authorization users)
  | PUT_auth_profile env authorization body =>
      snd (put_auth_profile SECRET_KEY env authorization body users)
  | POST_auth_logout =>
      snd (logout users)
  end.

Definition serve_all (reqs : list request) (users : collection) : collection :=
  foldl serve users reqs.

End Server.

(** No subject id has more than one document. *)
Definition unique_subjects (users : collection) : Prop :=
  forall sub : string,
    (count_documents {[ "google_id" := VStr sub ]} users <= 1)%nat.

(** The fields that [PUT /auth/profile] may set, and what validation
    makes of the value a body gives to one of them. *)
Definition profile_fields : list string := ["name"; "about_me"; "age"].

Definition validated {codec : Codec} (k : string) (v : value)
  : option value :=
  if decide (k = "age")
  then from_option VInt VNone <$> optional int_validator v
  else from_option VStr VNone <$> optional str_validator v.

(** The age among the fields of an update, if it is an integer, fits the
    8 bytes of a BSON integer. *)
Definition age_fits (update_data : dict) : Prop :=
  match update_data !! "age" with
  | Some (VInt n) => - 2 ^ 63 <= n < 2 ^ 63
  | _ => True
  end.

#[global] Instance age_fits_dec update_data : Decision (age_fits update_data).
Proof.
  unfold age_fits. destruct (update_data !! "age") as [[]|]; apply _.
Defined.

(** A request to one of the two routes over [status_checks], with what
    it reads from outside, and the collection after a run of them. *)
Inductive status_request : Type :=
  | POST_status (fresh : factories) (body : request_body)
  | GET_status (fresh : nat -> factories).

Definition serve_status (db : collection) (req : status_request)
  : collection :=
  match req with
  | POST_status fresh body => snd (post_status_check fresh body db)
  | GET_status fresh => snd (get_status_checks fresh db)
  end.

Definition serve_status_all (reqs : list status_request) (db : collection)
  : collection :=
  foldl serve_status db reqs.

(** * The token helper of [backend_test.py] *)

Section TestTokens.
Context {codec : Codec}.
Variable JWT_SECRET : string.

(** [create_test_token(sub, email, name, expired)] at clock reading
    [utcnow]. *)
Definition create_test_token (utcnow : Z) (sub email name : string)
    (expired : bool) : exn + string :=
  let payload : dict :=
    {[ "sub" := VStr sub; "email" := VStr email; "name" := VStr name ]} in
  let payload :=
    if expired
    then <[ "exp" := VDatetime (utcnow - timedelta_hours 1) ]> payload
    else <[ "exp" := VDatetime (utcnow + timedelta_hours 24) ]> payload in
  jwt_encode payload JWT_SECRET.

(** The expiry that the helper puts into the token, in whole seconds. *)
Definition test_token_exp (utcnow : Z) (expired : bool) : Z :=
  if expired then timegm utcnow - 3600 else timegm utcnow + 24 * 3600.

End TestTokens.

(** The checks of the registered claims on a payload that is given in
    full. *)
Ltac closed_claims_pass :=
  unfold claims_pass, not_after, string_claim;
  split_and!; intros ? H; vm_compute in H; simplify_eq; eauto.

(** * More concrete runs *)

(** A callback whose provider profile lacks the email, and a short run of
    requests from the empty store: Alice logs in, renames herself, and
    logs in again. *)
Definition login_without_email : login_env :=
  {| oauth_outcome := inr (Some {[ "sub" := VStr "g-alice" ]});
     uuid4 := "u-3";
     utcnow_created_at := 0; utcnow_last_login := 0; utcnow_token := 0;
     users_fault := None |}.

Definition alice_header : option string := Some "Bearer H.E.mac-s3cret-3".

Definition alice_run : list request :=
  [ GET_auth_google (Toy.login 1000000);
    PUT_auth_profile (Toy.env 5) alice_header
      (body_json (Some {[ "name" := VStr "Bob" ]}));
    POST_auth_logout;
    GET_auth_google (Toy.login 5000000) ].

(** * Properties *)

(** ** Splitting the header *)

Lemma split_nonempty sep s : split sep s <> [].
Proof.
  destruct s as [|c s]; simpl; [done|].
  destruct (Ascii.eqb c sep); [done|].
  by destruct (split sep s).
Qed.

Lemma split_cons sep c s :
  split sep (String c s) =
  if Ascii.eqb c sep then "" :: split sep s
  else match split sep s with
       | hd :: tl => String c hd :: tl
       | [] => [String c ""]
       end.
Proof. done. Qed.

Lemma startswith_app s p :
  startswith s p = true <-> exists rest, s = p +:+ rest.
Proof.
  revert s. induction p as [|a p IH]; intros s; simpl.
  - split; [intros _; by exists s|done].
  - destruct s as [|b s]; simpl; [split; [done|intros [? H]; discriminate H]|].
    rewrite andb_true_iff, Ascii.eqb_eq, IH. split.
    + intros [-> [rest ->]]. by exists rest.
    + intros [rest Hr]. injection Hr as -> ->. split; [done|by exists rest].
Qed.

(** A header that starts with the scheme always has a second field, so
    the index into the split header is in range. *)
Lemma split_bearer (h : string) :
  startswith h "Bearer " = true ->
  exists rest, h = "Bearer " +:+ rest /\
    split " " h !! 1%nat = head (split " " rest).
Proof.
  intros [rest ->]%startswith_app. exists rest. split; [done|].
  change ("Bearer " +:+ rest)
    with (String "B" (String "e" (String "a" (String "r" (String "e"
            (String "r" (String " " rest))))))).
  rewrite !split_cons. simpl.
  by destruct (split " " rest).
Qed.

Lemma split_bearer_token (h : string) :
  startswith h "Bearer " = true -> is_Some (split " " h !! 1%nat).
Proof.
  intros (rest & _ & ->)%split_bearer.
  pose proof (split_nonempty " " rest).
  by destruct (split " " rest).
Qed.

(** ** Token verification *)

Section TokenFacts.
Context {codec : Codec}.
Variable SECRET_KEY : string.

Lemma or_else_None {A} (x y : option A) :
  or_else x y = None <-> x = None /\ y = None.
Proof. destruct x; simpl; intuition congruence. Qed.

Lemma validate_claims_None payload now :
  validate_claims payload now = None <->
  validate_iat payload now = None /\
  validate_nbf payload now = None /\
  validate_exp payload now = None /\
  validate_aud payload = None /\
  validate_sub payload = None /\
  validate_jti payload = None.
Proof. unfold validate_claims. rewrite !or_else_None. tauto. Qed.

(** What [jwt.decode] has checked when it returns a payload. *)
Lemma jwt_decode_payload token now payload :
  jwt_decode token SECRET_KEY now = inr payload ->
  correctly_signed SECRET_KEY token payload /\
  validate_claims payload now = None.
Proof.
  unfold jwt_decode, verify_signature.
  destruct (jwt_load token) as [[[[si h] t] sg]|] eqn:Hl; [|done].
  destruct (bool_decide (h !! "b64" = Some (VBool false))) eqn:Hb; [done|].
  destruct (bool_decide (h !! "alg" = Some (VStr "HS256"))) eqn:Ha;
    simpl; [|done].
  destruct (bool_decide (sg = hmac_sha256 SECRET_KEY si)) eqn:Hs;
    simpl; [|done].
  destruct (json_loads t) as [p|] eqn:Hp; [|done].
  destruct (validate_claims p now) as [e|] eqn:He; [done|].
  intros [= <-]. split; [|done]. exists si, h, t, sg.
  apply bool_decide_eq_false in Hb.
  apply bool_decide_eq_true in Ha. apply bool_decide_eq_true in Hs. done.
Qed.

Lemma correctly_signed_decode token payload now :
  correctly_signed SECRET_KEY token payload ->
  jwt_decode token SECRET_KEY now =
    match validate_claims payload now with
    | Some e => inl e
    | None => inr payload
    end.
Proof.
  intros (si & h & t & sg & Hl & Hb & Ha & Hs & Hp).
  unfold jwt_decode, verify_signature. rewrite Hl.
  rewrite bool_decide_false by done.
  rewrite !bool_decide_true by done. simpl. by rewrite Hp.
Qed.

Lemma invalid_token_decode now token :
  invalid_token SECRET_KEY now token ->
  exists e, jwt_decode token SECRET_KEY now = inl e.
Proof.
  intros Hi.
  destruct (jwt_decode token SECRET_KEY now) as [e|payload] eqn:Hd;
    [by exists e|exfalso].
  apply jwt_decode_payload in Hd
    as [(si & h & t & sg & Hl & Hb & Ha & Hs & Hp) Hc].
  apply validate_claims_None in Hc as (_ & _ & Hexp & _).
  unfold validate_exp in Hexp.
  destruct Hi as [H|si' h' t' sg' H Ht|si' h' t' sg' H Hbad
                 |si' h' t' sg' p v H Ht Hv Hn
                 |si' h' t' sg' p v e H Ht Hv Hn Hpast];
    rewrite Hl in H; simplify_eq.
  - destruct Hbad as [?|[?|?]]; done.
  - by rewrite Hv, Hn in Hexp.
  - rewrite Hv, Hn in Hexp. by rewrite bool_decide_true in Hexp.
Qed.

(** Every error of [jwt.decode] is answered 401. *)
Lemma jwt_decode_error_401 now token e :
  jwt_decode token SECRET_KEY now = inl e ->
  exists detail,
    verify_token SECRET_KEY token now = inl (HTTPException 401 detail).
Proof. unfold verify_token. intros ->. destruct e; eauto. Qed.

Lemma invalid_token_401 now token :
  invalid_token SECRET_KEY now token ->
  exists detail,
    verify_token SECRET_KEY token now = inl (HTTPException 401 detail).
Proof. intros [e He]%invalid_token_decode. by eapply jwt_decode_error_401. Qed.

Lemma verify_token_decode token now payload :
  verify_token SECRET_KEY token now = inr payload ->
  jwt_decode token SECRET_KEY now = inr payload.
Proof.
  unfold verify_token.
  destruct (jwt_decode token SECRET_KEY now) as [[]|p]; try done.
  by intros [= ->].
Qed.

(** The checks that [claims_pass] speaks of. *)
Lemma not_after_check payload k now (e1 e2 : jwt_error) :
  not_after payload k now ->
  match payload !! k with
  | None => None
  | Some v =>
      match int_of_value v with
      | None => Some e1
      | Some n =>
          if bool_decide (now < n * 1000000) then Some e2 else None
      end
  end = None.
Proof.
  intros H. destruct (payload !! k) as [v|] eqn:Hv; [|done].
  destruct (H v Hv) as (n & -> & Hn).
  by rewrite bool_decide_false by lia.
Qed.

Lemma string_claim_check payload k e :
  string_claim payload k -> validate_str k e payload = None.
Proof.
  intros H. unfold validate_str.
  destruct (payload !! k) as [v|] eqn:Hv; [|done].
  by destruct (H v Hv) as [s ->].
Qed.

Lemma claims_pass_validate payload now :
  claims_pass payload now ->
  validate_claims payload now = validate_exp payload now.
Proof.
  intros (Hiat & Hnbf & Haud & Hsub & Hjti). unfold validate_claims.
  unfold validate_iat. rewrite (not_after_check _ _ _ _ _ Hiat). simpl.
  unfold validate_nbf. rewrite (not_after_check _ _ _ _ _ Hnbf). simpl.
  assert (validate_aud payload = None) as ->.
  { unfold validate_aud. destruct (payload !! "aud") as [v|] eqn:Hv; [|done].
    by rewrite (Haud v). }
  unfold validate_sub, validate_jti.
  rewrite !string_claim_check by done.
  by destruct (validate_exp payload now).
Qed.

Lemma not_after_mono payload k now later :
  now <= later -> not_after payload k now -> not_after payload k later.
Proof.
  intros Hle H v Hv. destruct (H v Hv) as (n & Hn & Hnow).
  exists n. split; [done|lia].
Qed.

Lemma claims_pass_mono payload now later :
  now <= later -> claims_pass payload now -> claims_pass payload later.
Proof.
  intros Hle (Hiat & Hnbf & Hrest).
  split; [|split]; [by eapply not_after_mono..|exact Hrest].
Qed.

Lemma claims_pass_insert_exp payload now v :
  claims_pass payload now -> claims_pass (<[ "exp" := v ]> payload) now.
Proof.
  unfold claims_pass, not_after, string_claim.
  intros (Hiat & Hnbf & Haud & Hsub & Hjti).
  split_and!; intros w; rewrite lookup_insert_ne by done; auto.
Qed.

End TokenFacts.

(** ** The authentication dependency *)

Section AuthFacts.
Context {codec : Codec}.
Variable SECRET_KEY : string.

Lemma startswith_nonempty h p :
  p <> "" -> startswith h p = true -> h <> "".
Proof. destruct p, h; simpl; congruence. Qed.

Lemma get_current_user_rejected env db authorization code :
  rejected SECRET_KEY env db authorization code ->
  exists detail,
    get_current_user SECRET_KEY env authorization db
    = (inl (HTTPException code detail), db).
Proof.
  intros [|h Hs|h token Hs Ht Hi|h token payload Hs Ht Hv Hf];
    unfold get_current_user, raise, bind, lift.
  - eauto.
  - rewrite Hs. simpl. rewrite orb_true_r. eauto.
  - rewrite Hs, Ht. rewrite bool_decide_false
      by (by apply (startswith_nonempty _ "Bearer ")).
    simpl. destruct (invalid_token_401 _ _ _ Hi) as [detail ->]. eauto.
  - rewrite Hs, Ht. rewrite bool_decide_false
      by (by apply (startswith_nonempty _ "Bearer ")).
    simpl. rewrite Hv, Hf. eauto.
Qed.

(** C1, as the code has it.  On [GET /auth/me], and on [PUT /auth/profile]
    with a body that FastAPI can read (a JSON value, or no body at all),
    a request without an Authorization header, with a header that does
    not start with "Bearer ", or with a token whose structure or
    signature is invalid or whose expiry is malformed or past is
    answered 401; a request whose token verifies while no user document
    matches its subject is answered 404.  What the body of the PUT holds
    plays no part and the store is left as it was.  A PUT whose body
    cannot be read is another matter: it is answered before the header
    is looked at, 422 for bytes that are no JSON and 400 for bytes that
    cannot be read at all. *)
Theorem auth_failures_401_404 env db authorization code body :
  rejected SECRET_KEY env db authorization code ->
  status_of (fst (get_auth_me SECRET_KEY env authorization db)) = code /\
  status_of (fst (put_auth_profile SECRET_KEY env authorization
                    (body_json body) db)) = code /\
  snd (put_auth_profile SECRET_KEY env authorization (body_json body) db)
    = db /\
  status_of (fst (put_auth_profile SECRET_KEY env authorization
                    body_malformed db)) = 422%nat /\
  status_of (fst (put_auth_profile SECRET_KEY env authorization
                    body_unreadable db)) = 400%nat.
Proof.
  intros [detail Hd]%get_current_user_rejected.
  unfold get_auth_me, put_auth_profile, read_body, bind. by rewrite Hd.
Qed.

End AuthFacts.

(** ** Issuing and verifying session tokens *)

Lemma timegm_plus_hours us h :
  timegm (us + timedelta_hours h) = timegm us + h * 3600.
Proof.
  unfold timegm, timedelta_hours.
  rewrite Z.div_add by done. done.
Qed.

Lemma numeric_date_serializable k v :
  json_serializable v -> numeric_date k v = v.
Proof. by destruct v. Qed.

Lemma jwt_payload_expiry (data : dict) expire :
  map_Forall (fun _ v => json_serializable v) data ->
  jwt_payload ({[ "exp" := VDatetime expire ]} ∪ data)
  = <[ "exp" := VInt (timegm expire) ]> data.
Proof.
  intros Hd. apply map_eq. intros k. unfold jwt_payload.
  rewrite map_lookup_imap, <- insert_union_singleton_l.
  destruct (decide (k = "exp")) as [->|Hk].
  - by rewrite !lookup_insert_eq.
  - rewrite !lookup_insert_ne by done.
    destruct (data !! k) as [v|] eqn:Hv; simpl; [|done].
    by rewrite numeric_date_serializable by (by eapply Hd).
Qed.

Lemma split_first_None sep s : has_char sep s = false -> split_first sep s = None.
Proof.
  induction s as [|x s IH]; simpl; [done|].
  intros [Hx Hs]%orb_false_elim. by rewrite Hx, IH.
Qed.

Lemma rsplit_last_None sep s : has_char sep s = false -> rsplit_last sep s = None.
Proof.
  induction s as [|x s IH]; simpl; [done|].
  intros [Hx Hs]%orb_false_elim. by rewrite Hx, IH.
Qed.

Lemma split_first_app sep a b :
  has_char sep a = false ->
  split_first sep (a +:+ String sep b) = Some (a, b).
Proof.
  induction a as [|x a IH]; simpl.
  - intros _. by rewrite Ascii.eqb_refl.
  - intros [Hx Ha]%orb_false_elim.
    change (String x a +:+ String sep b) with (String x (a +:+ String sep b)).
    simpl. by rewrite Hx, IH.
Qed.

Lemma rsplit_last_app sep a b :
  has_char sep b = false ->
  rsplit_last sep (a +:+ String sep b) = Some (a, b).
Proof.
  intros Hb. induction a as [|x a IH].
  - change ("" +:+ String sep b) with (String sep b). simpl.
    by rewrite (rsplit_last_None _ _ Hb), Ascii.eqb_refl.
  - change (String x a +:+ String sep b) with (String x (a +:+ String sep b)).
    simpl. by rewrite IH.
Qed.

Section IssueFacts.
Context {codec : Codec}.
Variable SECRET_KEY : string.

(** C4. The token issued for a claim set carries the claims together
    with an [exp] claim that lies exactly 24 hours after the issuance
    time (as a NumericDate, in whole seconds), under a header that names
    HS256, and its third segment is the HMAC-SHA256 of the first two
    under the secret.  The token is this function of the claims, the
    clock reading and the secret, and of nothing else. *)
Theorem create_access_token_spec (utcnow : Z) (data : dict) :
  map_Forall (fun _ v => json_serializable v) data ->
  let expire := utcnow + timedelta_hours 24 in
  let claims := <[ "exp" := VInt (timegm expire) ]> data in
  let signing_input := segment jwt_header +:+ "." +:+ segment claims in
  create_access_token SECRET_KEY utcnow data
    = inr (signing_input +:+ "." +:+
           base64url_encode (hmac_sha256 SECRET_KEY signing_input)) /\
  jwt_header !! "alg" = Some (VStr "HS256") /\
  claims !! "exp" = Some (VInt (timegm utcnow + 24 * 3600)) /\
  expire - utcnow = 24 * 3600 * 1000000.
Proof.
  intros Hd expire claims signing_input. split_and!.
  - unfold create_access_token, jwt_encode.
    rewrite jwt_payload_expiry by done.
    rewrite decide_True; [done|].
    by apply map_Forall_insert_2.
  - done.
  - unfold claims, expire. by rewrite lookup_insert_eq, timegm_plus_hours.
  - unfold expire, timedelta_hours. lia.
Qed.

(** C9, as the code has it.  A token that is correctly signed with the
    secret, carries no [exp] claim and passes the checks of the other
    registered claims at some clock reading verifies at that reading and
    at every later one: nothing makes the expiry mandatory, so such a
    token never expires. *)
Theorem verify_token_without_exp (token : string) (payload : dict) (now : Z) :
  correctly_signed SECRET_KEY token payload ->
  payload !! "exp" = None ->
  claims_pass payload now ->
  forall later, now <= later ->
    verify_token SECRET_KEY token later = inr payload.
Proof.
  intros Hs He Hc later Hle. unfold verify_token.
  rewrite (correctly_signed_decode _ _ _ later Hs).
  rewrite (claims_pass_validate _ _ (claims_pass_mono _ _ _ Hle Hc)).
  unfold validate_exp. by rewrite He.
Qed.

Lemma jwt_load_issued (claims : dict) :
  codec_round_trips SECRET_KEY claims ->
  exists text,
    jwt_load (signing_input_of claims +:+ "." +:+
              base64url_encode (hmac_sha256 SECRET_KEY (signing_input_of claims)))
    = Some (signing_input_of claims, jwt_header, text,
            hmac_sha256 SECRET_KEY (signing_input_of claims)) /\
    json_loads text = Some claims.
Proof.
  intros (Hh & Hc & Hs & Hdh & Hdc & Hds).
  unfold load_segment in Hc.
  destruct (base64url_decode (segment claims)) as [text|] eqn:Ht; [|done].
  exists text. split; [|done]. unfold jwt_load.
  change (?a +:+ "." +:+ ?b) with (a +:+ String "." b).
  rewrite rsplit_last_app by done. simpl.
  unfold signing_input_of.
  change (?a +:+ "." +:+ ?b) with (a +:+ String "." b).
  rewrite split_first_app by done. simpl.
  change (segment jwt_header +:+ String "." (segment claims))
    with (signing_input_of claims).
  rewrite Hh. simpl. rewrite Ht. simpl. by rewrite Hs.
Qed.

(** The claim sets that a login issues pass the checks of the registered
    claims at every clock reading. *)
Lemma login_claims_pass (data : dict) now :
  (forall k, is_Some (data !! k) -> k ∈ ["sub"; "email"; "name"]) ->
  string_claim data "sub" ->
  claims_pass data now.
Proof.
  intros Hkeys Hsub.
  assert (forall k v, data !! k = Some v ->
            k <> "sub" -> k <> "email" -> k <> "name" -> False) as Hno.
  { intros k v Hv H1 H2 H3.
    assert (k ∈ ["sub"; "email"; "name"]) as Hk by (apply Hkeys; by exists v).
    repeat (apply elem_of_cons in Hk as [Hk|Hk]; [done|]).
    by apply elem_of_nil in Hk. }
  unfold claims_pass, not_after.
  split_and!; [intros v Hv; exfalso; by eapply Hno..|exact Hsub|].
  intros v Hv. exfalso. by eapply Hno.
Qed.

(** X1. The lifetime of an issued token.  For the claim sets that a login
    issues (a subject, an email and a name, the subject a string), and
    where the primitives round-trip, the token issued at [utcnow]
    verifies, giving back the claims with their expiry, at every clock
    reading before 24 hours after the whole second of the issuance, and
    is refused as expired from that reading on. *)
Theorem issued_token_lifetime (utcnow : Z) (data : dict) (now : Z) :
  let claims := <[ "exp" := VInt (timegm utcnow + 24 * 3600) ]> data in
  map_Forall (fun _ v => json_serializable v) data ->
  (forall k, is_Some (data !! k) -> k ∈ ["sub"; "email"; "name"]) ->
  string_claim data "sub" ->
  codec_round_trips SECRET_KEY claims ->
  exists token,
    create_access_token SECRET_KEY utcnow data = inr token /\
    verify_token SECRET_KEY token now
    = if bool_decide ((timegm utcnow + 24 * 3600) * 1000000 <= now)
      then inl (HTTPException 401 "Token expired")
      else inr claims.
Proof.
  intros claims Hd Hkeys Hsub Hrt.
  pose proof (login_claims_pass data now Hkeys Hsub) as Hpass.
  destruct (jwt_load_issued claims Hrt) as (text & Hl & Ht).
  eexists. split.
  - unfold create_access_token, jwt_encode.
    rewrite jwt_payload_expiry, timegm_plus_hours by done.
    fold claims. rewrite decide_True; [done|].
    by apply map_Forall_insert_2.
  - unfold verify_token.
    rewrite (correctly_signed_decode SECRET_KEY _ claims now).
    + rewrite (claims_pass_validate claims now)
        by (by apply claims_pass_insert_exp).
      unfold validate_exp, claims. rewrite lookup_insert_eq. simpl.
      by case_bool_decide.
    + eexists _, _, _, _. split_and!; [exact Hl|done..].
Qed.

End IssueFacts.

(** ** The document store *)

Lemma bson_datetime_idemp us : bson_datetime (bson_datetime us) = bson_datetime us.
Proof. unfold bson_datetime. by rewrite Z.div_mul. Qed.

Lemma bson_value_idemp v : bson_value (bson_value v) = bson_value v.
Proof. destruct v; simpl; [done..| |done]. by rewrite bson_datetime_idemp. Qed.

Lemma bson_doc_lookup (d : dict) k : bson_doc d !! k = bson_value <$> d !! k.
Proof. apply lookup_fmap. Qed.

Lemma field_matches_refl v : field_matches (Some v) v.
Proof. destruct v; simpl; auto. Qed.

(** A document that holds every field of the query as the driver encodes
    it is selected by the query. *)
Lemma doc_matches_incl (q d : dict) :
  (forall k v, q !! k = Some v -> d !! k = Some (bson_value v)) ->
  doc_matches (bson_doc q) d.
Proof.
  intros H k v'. rewrite bson_doc_lookup.
  destruct (q !! k) as [v|] eqn:Hq; intros [= <-].
  rewrite (H _ _ Hq). apply field_matches_refl.
Qed.

Lemma set_fields_lookup (upd d : dict) k v :
  upd !! k = Some v -> (bson_doc upd ∪ d) !! k = Some (bson_value v).
Proof.
  intros H. apply lookup_union_Some_l. by rewrite bson_doc_lookup, H.
Qed.

Lemma set_fields_frame (upd d : dict) k :
  upd !! k = None -> (bson_doc upd ∪ d) !! k = d !! k.
Proof.
  intros H. apply lookup_union_r. by rewrite bson_doc_lookup, H.
Qed.

Lemma set_fields_matches (q upd d : dict) :
  q ⊆ upd -> doc_matches (bson_doc q) (bson_doc upd ∪ d).
Proof.
  intros Hq. apply doc_matches_incl. intros k v Hk.
  apply set_fields_lookup. by eapply lookup_weaken.
Qed.

Section Filter.
Context {A : Type} (P : A -> Prop) `{!forall x, Decision (P x)}.

Lemma filter_insert_length (l : list A) i x y :
  l !! i = Some x -> (P x <-> P y) ->
  length (filter P (<[i := y]> l)) = length (filter P l).
Proof.
  revert i. induction l as [|a l IH]; intros [|i] Hi Hxy; simplify_eq/=.
  - destruct (decide (P x)) as [Hx|Hx].
    + rewrite !filter_cons_True by tauto. done.
    + rewrite !filter_cons_False by tauto. done.
  - destruct (decide (P a)).
    + rewrite !filter_cons_True by done. simpl. f_equal. by eapply IH.
    + rewrite !filter_cons_False by done. by eapply IH.
Qed.

Lemma filter_length_pos (l : list A) i x :
  l !! i = Some x -> P x -> (0 < length (filter P l))%nat.
Proof.
  intros Hi Hx.
  assert (x ∈ filter P l) as Hin.
  { apply list_elem_of_filter. split; [done|]. by eapply list_elem_of_lookup_2. }
  destruct (filter P l); [by apply elem_of_nil in Hin|simpl; lia].
Qed.

Lemma filter_none (l : list A) : Forall (fun x => ~ P x) l -> filter P l = [].
Proof.
  induction 1 as [|a l Ha _ IH]; [done|].
  by rewrite filter_cons_False.
Qed.
End Filter.

(** What an upsert does to the collection: the first document that the
    query selects is updated in place; when there is none, one document
    is appended.  Either way the query then selects the written
    document first. *)
Lemma update_one_upsert_first (q upd : dict) (coll : collection) :
  q ⊆ upd ->
  exists i d0,
    list_find (doc_matches (bson_doc q)) (update_one q upd true coll)
      = Some (i, bson_doc upd ∪ d0) /\
    (coll !! i = Some d0 \/ (coll !! i = None /\ d0 = bson_doc q)).
Proof.
  intros Hq. unfold update_one.
  destruct (list_find _ coll) as [[i d]|] eqn:Hf.
  - apply list_find_Some in Hf as (Hi & Hd & Hlt).
    exists i, d. split; [|by left].
    apply list_find_Some. split_and!.
    + apply list_lookup_insert_eq. by eapply lookup_lt_Some.
    + by apply set_fields_matches.
    + intros j y Hj Hji. rewrite list_lookup_insert_ne in Hj by lia. eauto.
  - apply list_find_None in Hf.
    exists (length coll), (bson_doc q). split.
    + apply list_find_Some. split_and!.
      * by rewrite lookup_app_r, Nat.sub_diag by lia.
      * by apply set_fields_matches.
      * intros j y Hj Hji. rewrite lookup_app_l in Hj by done.
        eapply Forall_lookup_1 in Hf; eauto.
    + right. split; [|done]. by apply lookup_ge_None.
Qed.

Lemma update_one_existing (q upd : dict) (upsert : bool) (coll : collection) d0 :
  q ⊆ upd ->
  find_one q coll = Some d0 ->
  exists i,
    coll !! i = Some d0 /\
    update_one q upd upsert coll = <[i := bson_doc upd ∪ d0]> coll /\
    find_one q (<[i := bson_doc upd ∪ d0]> coll) = Some (bson_doc upd ∪ d0).
Proof.
  intros Hq. unfold find_one, update_one.
  destruct (list_find _ coll) as [[i d]|] eqn:Hf; [|done].
  intros [= ->]. exists i.
  apply list_find_Some in Hf as (Hi & Hd & Hlt). split_and!; [done..|].
  erewrite (proj2 (list_find_Some _ _ i _)); [done|]. split_and!.
  - apply list_lookup_insert_eq. by eapply lookup_lt_Some.
  - by apply set_fields_matches.
  - intros j y Hj Hji. rewrite list_lookup_insert_ne in Hj by lia. eauto.
Qed.

Lemma find_one_update_one_upsert (q upd : dict) (coll : collection) :
  q ⊆ upd ->
  exists d,
    find_one q (update_one q upd true coll) = Some d /\
    forall k v, upd !! k = Some v -> d !! k = Some (bson_value v).
Proof.
  intros Hq. destruct (update_one_upsert_first q upd coll Hq) as (i & d0 & Hf & _).
  exists (bson_doc upd ∪ d0). unfold find_one. rewrite Hf. split; [done|].
  intros k v. apply set_fields_lookup.
Qed.

(** An upsert keeps the number of selected documents, except that it
    makes it one when it was zero. *)
Lemma count_update_one_upsert (q upd : dict) (coll : collection) :
  q ⊆ upd ->
  count_documents q (update_one q upd true coll)
    = Nat.max 1 (count_documents q coll) /\
  length (update_one q upd true coll)
    = (length coll + (1 - count_documents q coll))%nat.
Proof.
  intros Hq. unfold update_one, count_documents.
  destruct (list_find _ coll) as [[i d]|] eqn:Hf.
  - apply list_find_Some in Hf as (Hi & Hd & _).
    pose proof (filter_length_pos _ _ _ _ Hi Hd) as Hpos.
    rewrite (filter_insert_length _ _ _ d), length_insert.
    + lia.
    + done.
    + split; [intros _; by apply set_fields_matches|done].
  - apply list_find_None in Hf.
    rewrite filter_app, length_app, length_app, (filter_none _ _ Hf).
    rewrite filter_cons_True by (by apply set_fields_matches).
    done.
Qed.

(** Without upsert, an update changes at most the first selected
    document, and only in the fields it sets. *)
Lemma update_one_frame (q upd : dict) (coll : collection) i d :
  coll !! i = Some d ->
  exists d',
    update_one q upd false coll !! i = Some d' /\
    (forall k, upd !! k = None -> d' !! k = d !! k) /\
    (~ doc_matches (bson_doc q) d -> d' = d).
Proof.
  intros Hi. unfold update_one.
  destruct (list_find _ coll) as [[j dj]|] eqn:Hf; [|by exists d].
  apply list_find_Some in Hf as (Hj & Hdj & _).
  destruct (decide (i = j)) as [->|Hij].
  - assert (dj = d) as -> by congruence.
    exists (bson_doc upd ∪ d). split_and!.
    + apply list_lookup_insert_eq. by eapply lookup_lt_Some.
    + intros k. apply set_fields_frame.
    + done.
  - exists d. by rewrite list_lookup_insert_ne.
Qed.

Lemma update_one_length (q upd : dict) (coll : collection) :
  length (update_one q upd false coll) = length coll.
Proof.
  unfold update_one. destruct (list_find _ coll) as [[j dj]|]; [|done].
  apply length_insert.
Qed.

(** What the driver can encode. *)
Lemma subject_query_encodable (s : string) :
  bson_encodable_doc {[ "google_id" := VStr s ]}.
Proof. by apply map_Forall_singleton. Qed.

Lemma users_update_one_subject (s : string) (upd : dict) upsert db :
  users_update_one None {[ "google_id" := VStr s ]} upd upsert db
  = if decide (bson_encodable_doc upd)
    then (inr tt, update_one {[ "google_id" := VStr s ]} upd upsert db)
    else (inl bson_overflow, db).
Proof.
  unfold users_update_one.
  pose proof (subject_query_encodable s) as Hq.
  destruct (decide (bson_encodable_doc upd)) as [Hu|Hu].
  - by rewrite decide_True.
  - rewrite decide_False; [done|]. by intros [_ ?].
Qed.

(** ** The login callback *)

Section LoginFacts.
Context {codec : Codec}.
Variable SECRET_KEY : string.
Variable FRONTEND_URL : option string.

Lemma callback_url_not_error_url token message :
  callback_url FRONTEND_URL token <> error_url FRONTEND_URL message.
Proof.
  unfold callback_url, error_url. intros H.
  apply (inj (String.app _)) in H. discriminate H.
Qed.

Lemma user_data_google_id env user_info sub email name :
  ({[ "google_id" := sub ]} : dict) ⊆ user_data env user_info sub email name.
Proof. apply map_singleton_subseteq_l. reflexivity. Qed.

Lemma callback_url_inj token token' :
  callback_url FRONTEND_URL token = callback_url FRONTEND_URL token' ->
  token = token'.
Proof.
  unfold callback_url. intros H.
  apply (inj (String.app _)) in H. by apply (inj (String.app _)) in H.
Qed.

Lemma user_data_query_encodable env user_info sub email name :
  bson_encodable_doc (user_data env user_info sub email name) ->
  bson_encodable_doc {[ "google_id" := sub ]}.
Proof.
  intros H. apply map_Forall_singleton. by apply (H "google_id").
Qed.

(** The upsert of the callback. *)
Lemma login_upsert env user_info sub email name db :
  users_update_one (users_fault env) {[ "google_id" := sub ]}
    (user_data env user_info sub email name) true db
  = match users_fault env with
    | Some e => (inl e, db)
    | None =>
        if decide (bson_encodable_doc (user_data env user_info sub email name))
        then (inr tt,
              update_one {[ "google_id" := sub ]}
                (user_data env user_info sub email name) true db)
        else (inl bson_overflow, db)
    end.
Proof.
  unfold users_update_one. destruct (users_fault env); [done|].
  destruct (decide (bson_encodable_doc (user_data _ _ _ _ _))) as [Hu|Hu].
  - rewrite decide_True; [done|].
    split; [by eapply user_data_query_encodable|done].
  - rewrite decide_False; [done|]. by intros [_ ?].
Qed.

Lemma google_auth_success_token env db token db' :
  google_auth SECRET_KEY FRONTEND_URL env db
    = (inr (RedirectResponse (callback_url FRONTEND_URL token)), db') ->
  exists user_info sub email name,
    oauth_outcome env = inr (Some user_info) /\
    user_info !! "sub" = Some sub /\
    user_info !! "email" = Some email /\
    user_info !! "name" = Some name /\
    users_fault env = None /\
    db' = update_one {[ "google_id" := sub ]}
            (user_data env user_info sub email name) true db /\
    create_access_token SECRET_KEY (utcnow_token env)
      {[ "sub" := sub; "email" := email; "name" := name ]} = inr token.
Proof.
  unfold google_auth, try_except. intros Hg.
  destruct (google_auth_try _ _ env db) as [[e|r0] db0] eqn:Ht.
  { unfold ret in Hg. exfalso.
    apply (callback_url_not_error_url token (str_exn e)). congruence. }
  injection Hg as -> <-. revert Ht.
  unfold google_auth_try, bind, lift, raise, ret, getitem.
  destruct (oauth_outcome env) as [e|[u|]]; [done| |done].
  destruct (decide (u = ∅)); [done|].
  destruct (u !! "sub") as [sub|] eqn:Hs; [|done].
  destruct (u !! "email") as [email|] eqn:He; [|done].
  destruct (u !! "name") as [name|] eqn:Hn; [|done].
  rewrite login_upsert.
  destruct (users_fault env) eqn:Hf; [intros H; discriminate H|].
  destruct (decide (bson_encodable_doc _)) as [Henc|Henc];
    [|intros H; discriminate H].
  destruct (create_access_token _ _ _) as [e|a] eqn:Hc;
    [intros H; discriminate H|].
  intros [= Ha%callback_url_inj <-]. subst a.
  exists u, sub, email, name. split_and!; first [assumption|reflexivity].
Qed.

Lemma google_auth_success env db r db' :
  google_auth SECRET_KEY FRONTEND_URL env db = (r, db') ->
  login_succeeded FRONTEND_URL r ->
  exists user_info sub email name,
    oauth_outcome env = inr (Some user_info) /\
    user_info !! "sub" = Some sub /\
    user_info !! "email" = Some email /\
    user_info !! "name" = Some name /\
    users_fault env = None /\
    db' = update_one {[ "google_id" := sub ]}
            (user_data env user_info sub email name) true db.
Proof.
  intros Hg [tok ->].
  destruct (google_auth_success_token _ _ _ _ Hg)
    as (u & sub & email & name & Ho & Hs & He & Hn & Hf & Hdb & _).
  exists u, sub, email, name. split_and!; assumption.
Qed.

Lemma google_auth_try_failure env db e :
  login_failure SECRET_KEY env e ->
  exists db', google_auth_try SECRET_KEY FRONTEND_URL env db = (inl e, db').
Proof.
  unfold google_auth_try, bind, lift, raise, ret, getitem.
  intros [e' Ho|u' Ho Hu|u k Ho Hu Hk|u e' Ho Hu Hk Hf
         |u sub email name Ho Hu Hs He Hn Hf Henc
         |u sub email name e' Ho Hu Hs He Hn Hf Henc Ht]; rewrite Ho.
  - eauto.
  - destruct Hu as [->| ->]; [eauto|].
    rewrite decide_True by done. eauto.
  - rewrite decide_False by done. unfold missing_claim in Hk.
    destruct (u !! "sub"); [|injection Hk as <-; eauto].
    destruct (u !! "email"); [|injection Hk as <-; eauto].
    destruct (u !! "name"); [done|injection Hk as <-; eauto].
  - rewrite decide_False by done. unfold missing_claim in Hk.
    destruct (u !! "sub"); [|done].
    destruct (u !! "email"); [|done].
    destruct (u !! "name"); [|done].
    rewrite login_upsert, Hf. eauto.
  - rewrite decide_False by done. rewrite Hs, He, Hn.
    rewrite login_upsert, Hf. rewrite decide_False by done. eauto.
  - rewrite decide_False by done. rewrite Hs, He, Hn.
    rewrite login_upsert, Hf. rewrite decide_True by done.
    rewrite Ht. eauto.
Qed.

Lemma google_auth_try_classified env db :
  match google_auth_try SECRET_KEY FRONTEND_URL env db with
  | (inl e, _) => login_failure SECRET_KEY env e
  | (inr r, _) =>
      exists token, r = RedirectResponse (callback_url FRONTEND_URL token)
  end.
Proof.
  unfold google_auth_try, bind, lift, raise, ret, getitem.
  destruct (oauth_outcome env) as [e|[u|]] eqn:Ho.
  - by apply provider_error.
  - destruct (decide (u = ∅)) as [->|Hu].
    { eapply no_user_info; eauto. }
    destruct (u !! "sub") as [sub|] eqn:Hs;
      [|eapply claim_missing; eauto; unfold missing_claim; by rewrite Hs].
    destruct (u !! "email") as [email|] eqn:He;
      [|eapply claim_missing; eauto; unfold missing_claim; by rewrite Hs, He].
    destruct (u !! "name") as [name|] eqn:Hn;
      [|eapply claim_missing; eauto; unfold missing_claim; by rewrite Hs, He, Hn].
    rewrite login_upsert.
    destruct (users_fault env) as [e|] eqn:Hf.
    { eapply store_fault; eauto. unfold missing_claim. by rewrite Hs, He, Hn. }
    destruct (decide (bson_encodable_doc _)) as [Henc|Henc];
      [|by eapply (store_overflow _ _ u sub email name)].
    destruct (create_access_token _ _ _) as [e|token] eqn:Ht.
    + by eapply (token_failure _ _ u sub email name).
    + eauto.
  - eapply no_user_info; eauto.
Qed.

(** C6. Every failure of the callback (the provider or the state check
    refuses, the profile information is missing or incomplete, the
    driver or the token encoder raises) ends in a redirect to the URL
    made of the front end's address, the path [/auth/error] and the
    query [message=] followed by the text of the exception as it is: for
    missing profile information the status and the detail of the
    [HTTPException], for a missing claim the name of the claim in
    quotes, for an error of the provider its message.  And whatever
    happens, the callback returns a redirect, to that URL or to the
    callback URL with a token, and raises nothing. *)
Theorem google_auth_failures_redirect env db :
  let front :=
    default
      "https://dfe70bfd-0f3f-4410-b7d9-a3ddbd0a6aab.preview.emergentagent.com"
      FRONTEND_URL in
  let redirect_with (message : string) : exn + response :=
    inr (RedirectResponse (front +:+ "/auth/error?message=" +:+ message)) in
  (forall e, login_failure SECRET_KEY env e ->
     fst (google_auth SECRET_KEY FRONTEND_URL env db)
     = redirect_with (str_exn e)) /\
  (forall u, oauth_outcome env = inr u -> u = None \/ u = Some ∅ ->
     fst (google_auth SECRET_KEY FRONTEND_URL env db)
     = redirect_with "400: Failed to get user info from Google") /\
  (forall user_info k,
     oauth_outcome env = inr (Some user_info) -> user_info <> ∅ ->
     missing_claim user_info = Some k ->
     fst (google_auth SECRET_KEY FRONTEND_URL env db)
     = redirect_with ("'" +:+ k +:+ "'")) /\
  (forall cls msg, oauth_outcome env = inl (Error cls msg) ->
     fst (google_auth SECRET_KEY FRONTEND_URL env db) = redirect_with msg) /\
  (exists url,
     fst (google_auth SECRET_KEY FRONTEND_URL env db)
     = inr (RedirectResponse url) /\
     ((exists token, url = front +:+ "/auth/callback?token=" +:+ token) \/
      (exists e, login_failure SECRET_KEY env e /\
                 url = front +:+ "/auth/error?message=" +:+ str_exn e))).
Proof.
  intros front redirect_with.
  assert (forall e, login_failure SECRET_KEY env e ->
            fst (google_auth SECRET_KEY FRONTEND_URL env db)
            = redirect_with (str_exn e)) as Hfail.
  { intros e [db' He]%(google_auth_try_failure _ db).
    unfold google_auth, try_except. by rewrite He. }
  split_and!.
  - exact Hfail.
  - intros u Ho Hu.
    by rewrite (Hfail _ (no_user_info _ _ u Ho Hu)).
  - intros u k Ho Hu Hk.
    by rewrite (Hfail _ (claim_missing _ _ u k Ho Hu Hk)).
  - intros cls msg Ho.
    by rewrite (Hfail _ (provider_error _ _ _ Ho)).
  - pose proof (google_auth_try_classified env db) as Hc.
    unfold google_auth, try_except, ret.
    destruct (google_auth_try _ _ env db) as [[e|r] db'].
    + exists (error_url FRONTEND_URL (str_exn e)). split; [done|].
      right. by exists e.
    + destruct Hc as [token ->].
      exists (callback_url FRONTEND_URL token). split; [done|].
      left. by exists token.
Qed.

(** C3. After every successful callback the document of the subject
    holds the empty string as [about_me] and null as [age], whatever the
    store held before, a stored profile of the same subject included. *)
Theorem login_resets_bio_and_age env db r db' sub :
  login_subject env = Some (VStr sub) ->
  google_auth SECRET_KEY FRONTEND_URL env db = (r, db') ->
  login_succeeded FRONTEND_URL r ->
  exists d,
    find_one {[ "google_id" := VStr sub ]} db' = Some d /\
    d !! "about_me" = Some (VStr "") /\
    d !! "age" = Some VNone.
Proof.
  intros Hs Hg Hr.
  destruct (google_auth_success _ _ _ _ Hg Hr)
    as (u & sub' & email & name & Ho & Hsub & _ & _ & _ & ->).
  unfold login_subject in Hs. rewrite Ho in Hs. simplify_eq.
  destruct (find_one_update_one_upsert {[ "google_id" := VStr sub ]}
              (user_data env u (VStr sub) email name) db)
    as (d & Hd & Hfields); [apply user_data_google_id|].
  exists d. split_and!; [done|..].
  - by apply (Hfields "about_me" (VStr "")).
  - by apply (Hfields "age" VNone).
Qed.

(** C10. A successful callback for a subject that already has a document
    rewrites that document in place, and the rewritten document holds the
    UUID generated in this run as [id] and the clock reading of this run
    as [created_at], whatever the two fields held before: neither is
    stable across logins. *)
Theorem login_replaces_id_and_created_at env db r db' sub d0 :
  login_subject env = Some (VStr sub) ->
  find_one {[ "google_id" := VStr sub ]} db = Some d0 ->
  google_auth SECRET_KEY FRONTEND_URL env db = (r, db') ->
  login_succeeded FRONTEND_URL r ->
  exists i d,
    db !! i = Some d0 /\
    db' = <[i := d]> db /\
    find_one {[ "google_id" := VStr sub ]} db' = Some d /\
    d !! "id" = Some (VStr (uuid4 env)) /\
    d !! "created_at"
      = Some (VDatetime (bson_datetime (utcnow_created_at env))).
Proof.
  intros Hs Hd0 Hg Hr.
  destruct (google_auth_success _ _ _ _ Hg Hr)
    as (u & sub' & email & name & Ho & Hsub & _ & _ & _ & ->).
  unfold login_subject in Hs. rewrite Ho in Hs. simplify_eq.
  destruct (update_one_existing {[ "google_id" := VStr sub ]}
              (user_data env u (VStr sub) email name) true db d0)
    as (i & Hi & -> & Hf); [apply user_data_google_id|done|].
  exists i, (bson_doc (user_data env u (VStr sub) email name) ∪ d0).
  split_and!; [done..| |].
  - by apply (set_fields_lookup _ _ "id" (VStr (uuid4 env))).
  - by apply (set_fields_lookup _ _ "created_at"
                (VDatetime (utcnow_created_at env))).
Qed.

(** C2. Two successful callbacks in a row for one subject id, from a store
    that holds at most one document of that subject, leave exactly one
    document of the subject (the collection grows by one document if the
    subject was new and not at all otherwise); that document holds the
    clock reading of the second callback as [last_login] and the subject
    id as [google_id]. *)
Theorem two_logins_one_document env1 env2 db0 db1 db2 r1 r2 sub :
  login_subject env1 = Some (VStr sub) ->
  login_subject env2 = Some (VStr sub) ->
  (count_documents {[ "google_id" := VStr sub ]} db0 <= 1)%nat ->
  google_auth SECRET_KEY FRONTEND_URL env1 db0 = (r1, db1) ->
  login_succeeded FRONTEND_URL r1 ->
  google_auth SECRET_KEY FRONTEND_URL env2 db1 = (r2, db2) ->
  login_succeeded FRONTEND_URL r2 ->
  count_documents {[ "google_id" := VStr sub ]} db2 = 1%nat /\
  length db2
    = (length db0 + (1 - count_documents {[ "google_id" := VStr sub ]} db0))%nat /\
  exists d,
    find_one {[ "google_id" := VStr sub ]} db2 = Some d /\
    d !! "last_login"
      = Some (VDatetime (bson_datetime (utcnow_last_login env2))) /\
    d !! "google_id" = Some (VStr sub).
Proof.
  intros Hs1 Hs2 Hc Hg1 Hr1 Hg2 Hr2.
  destruct (google_auth_success _ _ _ _ Hg1 Hr1)
    as (u1 & s1 & e1 & n1 & Ho1 & Hsub1 & _ & _ & _ & ->).
  destruct (google_auth_success _ _ _ _ Hg2 Hr2)
    as (u2 & s2 & e2 & n2 & Ho2 & Hsub2 & _ & _ & _ & ->).
  unfold login_subject in Hs1, Hs2. rewrite Ho1 in Hs1. rewrite Ho2 in Hs2.
  simplify_eq.
  set (q := ({[ "google_id" := VStr sub ]} : dict)) in *.
  set (ud1 := user_data env1 u1 (VStr sub) e1 n1).
  set (ud2 := user_data env2 u2 (VStr sub) e2 n2).
  destruct (count_update_one_upsert q ud1 db0) as [Hc1 Hl1];
    [apply user_data_google_id|].
  destruct (count_update_one_upsert q ud2 (update_one q ud1 true db0))
    as [Hc2 Hl2]; [apply user_data_google_id|].
  destruct (find_one_update_one_upsert q ud2 (update_one q ud1 true db0))
    as (d & Hd & Hfields); [apply user_data_google_id|].
  split_and!.
  - lia.
  - lia.
  - exists d. split_and!; [done|..].
    + by apply (Hfields "last_login" (VDatetime (utcnow_last_login env2))).
    + by apply (Hfields "google_id" (VStr sub)).
Qed.

End LoginFacts.

(** ** The profile API *)

Lemma dict_exclude_unset_keys (u : UserProfileUpdate.t) k :
  k ∉ ["name"; "about_me"; "age"] ->
  UserProfileUpdate.dict_exclude_unset u !! k = None.
Proof.
  intros Hk. unfold UserProfileUpdate.dict_exclude_unset, UserProfileUpdate.put.
  assert (k <> "name" /\ k <> "about_me" /\ k <> "age") as (? & ? & ?).
  { split_and!; intros ->; apply Hk; set_solver. }
  destruct (UserProfileUpdate.name u), (UserProfileUpdate.about_me u),
    (UserProfileUpdate.age u);
    rewrite ?lookup_insert_ne by done; apply lookup_empty.
Qed.

Section ProfileFacts.
Context {codec : Codec}.
Variable SECRET_KEY : string.

(** The function under [PUT /auth/profile], step by step: nothing to
    set; an update that the driver cannot encode; the update and the
    read that follows it. *)
Lemma update_user_profile_unfold dflt profile_update current_user db :
  update_user_profile dflt profile_update current_user db
  = if decide (UserProfileUpdate.dict_exclude_unset profile_update = ∅)
    then (inr current_user, db)
    else if decide (bson_encodable_doc
                      (UserProfileUpdate.dict_exclude_unset profile_update))
    then
      let db' :=
        update_one {[ "google_id" := VStr (UserProfile.google_id current_user) ]}
          (UserProfileUpdate.dict_exclude_unset profile_update) false db in
      match find_one
              {[ "google_id" := VStr (UserProfile.google_id current_user) ]}
              db' with
      | Some updated_user => (UserProfile.of_dict dflt updated_user, db')
      | None => (inl (TypeError "argument after ** must be a mapping"), db')
      end
    else (inl bson_overflow, db).
Proof.
  unfold update_user_profile.
  destruct (decide (_ = ∅)); [done|].
  unfold bind. rewrite users_update_one_subject.
  by destruct (decide (bson_encodable_doc _)).
Qed.

Lemma update_user_profile_store dflt profile_update current_user db :
  snd (update_user_profile dflt profile_update current_user db) = db \/
  snd (update_user_profile dflt profile_update current_user db)
  = update_one {[ "google_id" := VStr (UserProfile.google_id current_user) ]}
      (UserProfileUpdate.dict_exclude_unset profile_update) false db.
Proof.
  rewrite update_user_profile_unfold.
  destruct (decide (_ = ∅)); [by left|].
  destruct (decide (bson_encodable_doc _)); [|by left].
  right. cbv zeta. by destruct (find_one _ _).
Qed.

Lemma update_user_profile_frame dflt profile_update current_user db i d :
  db !! i = Some d ->
  exists d',
    snd (update_user_profile dflt profile_update current_user db) !! i
      = Some d' /\
    (forall k, k ∉ ["name"; "about_me"; "age"] -> d' !! k = d !! k) /\
    (d !! "google_id" <> Some (VStr (UserProfile.google_id current_user)) ->
     d' = d).
Proof.
  intros Hi.
  destruct (update_user_profile_store dflt profile_update current_user db)
    as [->| ->]; [by exists d|].
  set (q := ({[ "google_id" := VStr (UserProfile.google_id current_user) ]} : dict)).
  destruct (update_one_frame q
              (UserProfileUpdate.dict_exclude_unset profile_update) db i d Hi)
    as (d' & Hd' & Hframe & Hother).
  exists d'. split_and!.
  - done.
  - intros k Hk. apply Hframe. by apply dict_exclude_unset_keys.
  - intros Hg. apply Hother. intros Hm. apply Hg.
    specialize (Hm "google_id" (VStr (UserProfile.google_id current_user))).
    apply Hm. unfold q. by rewrite bson_doc_lookup, lookup_singleton_eq.
Qed.

Lemma update_user_profile_length dflt profile_update current_user db :
  length (snd (update_user_profile dflt profile_update current_user db))
  = length db.
Proof.
  destruct (update_user_profile_store dflt profile_update current_user db)
    as [->| ->]; [done|apply update_one_length].
Qed.

Lemma get_current_user_reads env authorization db :
  snd (get_current_user SECRET_KEY env authorization db) = db.
Proof.
  unfold get_current_user, raise, bind, lift.
  destruct authorization as [h|]; [|done].
  destruct (_ || _); [done|].
  destruct (split " " h !! 1%nat) as [token|]; [|done].
  destruct (verify_token _ _ _) as [e|payload]; [done|].
  by destruct (find_one _ db) as [user|].
Qed.

(** C5. Whatever the request to [PUT /auth/profile] and whatever its body,
    the store keeps its documents in place, and every document keeps every
    field other than [name], [about_me] and [age] (so [email], [picture],
    [google_id], [id], [created_at] and [last_login] stay as they were); a
    document of another subject than the caller's keeps all its fields. *)
Theorem profile_update_frame env authorization body db i d :
  db !! i = Some d ->
  let db' := snd (put_auth_profile SECRET_KEY env authorization body db) in
  length db' = length db /\
  exists d',
    db' !! i = Some d' /\
    (forall k, k ∉ ["name"; "about_me"; "age"] -> d' !! k = d !! k) /\
    (forall current_user,
       fst (get_current_user SECRET_KEY env authorization db)
         = inr current_user ->
       d !! "google_id" <> Some (VStr (UserProfile.google_id current_user)) ->
       d' = d).
Proof.
  intros Hi. simpl. unfold put_auth_profile, read_body.
  destruct body as [| |body];
    [simpl; split; [done|]; by exists d..|].
  unfold bind.
  pose proof (get_current_user_reads env authorization db) as Hdb.
  destruct (get_current_user _ _ _ db) as [[e|user] db1]; simpl in Hdb; subst db1.
  { simpl. split; [done|]. exists d. split_and!; [done..|]. by intros ? [=]. }
  unfold put_auth_profile_as.
  destruct (UserProfileUpdate.of_body body) as [profile_update|].
  - split; [apply update_user_profile_length|].
    destruct (update_user_profile_frame (handler_factories env) profile_update
                user db i d Hi) as (d' & Hd' & Hframe & Hother).
    exists d'. split_and!; [done..|]. intros ? [= <-]. done.
  - simpl. split; [done|]. exists d. done.
Qed.

(** C8, as the code has it.  An authenticated [PUT /auth/profile] whose
    body, a JSON object, gives [age] a value that is not null and that
    pydantic's integer validation refuses (such as the string "thirty")
    is answered 422, and the store is left as it was. *)
Theorem profile_update_rejects_invalid_age env authorization (body : dict)
    v db current_user :
  fst (get_current_user SECRET_KEY env authorization db) = inr current_user ->
  body !! "age" = Some v ->
  v <> VNone ->
  int_validator v = None ->
  status_of (fst (put_auth_profile SECRET_KEY env authorization
                    (body_json (Some body)) db)) = 422%nat /\
  snd (put_auth_profile SECRET_KEY env authorization (body_json (Some body)) db)
    = db.
Proof.
  intros Hu Hb Hv Hi. unfold put_auth_profile, read_body, bind.
  pose proof (get_current_user_reads env authorization db) as Hdb.
  destruct (get_current_user _ _ _ db) as [[e|user] db1];
    simpl in Hu, Hdb; simplify_eq.
  unfold put_auth_profile_as.
  assert (UserProfileUpdate.of_body (Some body) = None) as ->; [|done].
  unfold UserProfileUpdate.of_body, UserProfileUpdate.given. simpl.
  rewrite Hb.
  assert (optional int_validator v = None) as ->.
  { unfold optional. rewrite Hi. by destruct v. }
  destruct (body !! "name") as [vn|]; simpl;
    [destruct (optional str_validator vn); simpl; [|done]|];
    (destruct (body !! "about_me") as [va|]; simpl;
     [by destruct (optional str_validator va)|done]).
Qed.

End ProfileFacts.

(** ** The status log *)

Lemma post_status_appends db req :
  post_status db req = (db ++ [status_doc req])%list.
Proof. destruct req as [fresh client_name]. reflexivity. Qed.

Lemma foldl_post_status reqs db :
  foldl post_status db reqs = (db ++ (status_doc <$> reqs))%list.
Proof.
  revert db. induction reqs as [|req reqs IH]; intros db; simpl.
  - by rewrite app_nil_r.
  - rewrite IH, post_status_appends. by rewrite <- app_assoc.
Qed.

Lemma post_all_docs reqs : post_all reqs = status_doc <$> reqs.
Proof. unfold post_all. by rewrite foldl_post_status. Qed.

Lemma status_models_stored fresh i reqs :
  status_models fresh i (status_doc <$> reqs) = Some (stored_status <$> reqs).
Proof.
  revert i. induction reqs as [|[f c] reqs IH]; intros i; [done|].
  rewrite !fmap_cons. simpl. rewrite IH.
  assert (StatusCheck.of_dict (fresh i) (status_doc (f, c))
          = Some (stored_status (f, c))) as -> by reflexivity.
  done.
Qed.

(** C7, as the code has it.  After any run of [POST /status] requests,
    [GET /status] returns the records in insertion order, oldest first,
    and at most the first 1000 of them: once more than 1000 exist, the
    1000 earliest are returned and every later one is left out. *)
Theorem get_status_checks_oldest_first fresh reqs :
  fst (get_status_checks fresh (post_all reqs))
  = inr (stored_status <$> take 1000 reqs).
Proof.
  unfold get_status_checks, find_to_list.
  rewrite post_all_docs, <- fmap_take, status_models_stored. done.
Qed.

(** Against C7 as stated.  After 1001 posts the answer holds 1000 records,
    starts with the oldest, and lacks the most recent one. *)
Lemma status_list_omits_newest :
  length (post_all many_requests) = 1001%nat /\
  exists l,
    fst (get_status_checks (fun _ => Toy.dflt) (post_all many_requests))
      = inr l /\
    length l = 1000%nat /\
    head l = Some (stored_status (numbered_request 0)) /\
    Forall (fun s => StatusCheck.client_name s <> "client-1000") l.
Proof.
  split.
  { rewrite post_all_docs. unfold many_requests.
    by rewrite !length_fmap, length_seq. }
  exists (stored_status <$> take 1000 many_requests). split_and!.
  - unfold get_status_checks, find_to_list.
    rewrite post_all_docs, <- fmap_take, status_models_stored. done.
  - unfold many_requests. rewrite length_fmap, length_take, length_fmap, length_seq.
    done.
  - reflexivity.
  - apply (bool_decide_unpack _). vm_compute. exact I.
Qed.

(** ** Concrete runs *)

(** Against C8 as stated.  Alice, authenticated, sends the JSON string
    "30" as her age: the value is no integer, yet the request is answered
    200 and her stored age changes from 41 to 30.  Null, no integer
    either, is accepted as well and erases her age. *)
Lemma numeric_string_age_accepted :
  fst (get_current_user (codec:=Toy.codec) Toy.secret (Toy.env 0)
         (Some "Bearer H.P.mac-s3cret-3") [Toy.alice_doc])
    = inr Toy.alice /\
  Toy.alice_doc !! "age" = Some (VInt 41) /\
  (status_of (fst (put_auth_profile (codec:=Toy.codec) Toy.secret (Toy.env 0)
                     (Some "Bearer H.P.mac-s3cret-3")
                     (body_json (Some {[ "age" := VStr "30" ]}))
                     [Toy.alice_doc]))
     = 200%nat /\
   snd (put_auth_profile (codec:=Toy.codec) Toy.secret (Toy.env 0)
          (Some "Bearer H.P.mac-s3cret-3")
          (body_json (Some {[ "age" := VStr "30" ]})) [Toy.alice_doc])
     = [ <[ "age" := VInt 30 ]> Toy.alice_doc ]) /\
  (status_of (fst (put_auth_profile (codec:=Toy.codec) Toy.secret (Toy.env 0)
                     (Some "Bearer H.P.mac-s3cret-3")
                     (body_json (Some {[ "age" := VNone ]}))
                     [Toy.alice_doc]))
     = 200%nat /\
   snd (put_auth_profile (codec:=Toy.codec) Toy.secret (Toy.env 0)
          (Some "Bearer H.P.mac-s3cret-3")
          (body_json (Some {[ "age" := VNone ]})) [Toy.alice_doc])
     = [ <[ "age" := VNone ]> Toy.alice_doc ]).
Proof. split_and!; vm_compute; reflexivity. Qed.

(** The string "thirty" is refused. *)
Example thirty_age_refused :
  put_auth_profile_as (codec:=Toy.codec) Toy.dflt Toy.alice
    (Some {[ "age" := VStr "thirty" ]}) [Toy.alice_doc]
  = (inl (RequestValidationError "validation errors in body"),
     [Toy.alice_doc]).
Proof. vm_compute. reflexivity. Qed.

(** C1 at an expired token, at a token whose expiry is null, and at an
    unknown subject. *)
Lemma auth_failures_401_404_witness :
  (rejected (codec:=Toy.codec) Toy.secret (Toy.env 86401000000)
     [Toy.alice_doc] (Some "Bearer H.E.mac-s3cret-3") 401 /\
   status_of (fst (get_auth_me (codec:=Toy.codec) Toy.secret
                     (Toy.env 86401000000) (Some "Bearer H.E.mac-s3cret-3")
                     [Toy.alice_doc])) = 401%nat) /\
  (rejected (codec:=Toy.codec) Toy.secret (Toy.env 0)
     [Toy.alice_doc] (Some "Bearer H.N.mac-s3cret-3") 401 /\
   status_of (fst (get_auth_me (codec:=Toy.codec) Toy.secret
                     (Toy.env 0) (Some "Bearer H.N.mac-s3cret-3")
                     [Toy.alice_doc])) = 401%nat) /\
  (rejected (codec:=Toy.codec) Toy.secret (Toy.env 0)
     [] (Some "Bearer H.E.mac-s3cret-3") 404 /\
   status_of (fst (put_auth_profile (codec:=Toy.codec) Toy.secret
                     (Toy.env 0) (Some "Bearer H.E.mac-s3cret-3")
                     (body_json (Some {[ "age" := VStr "thirty" ]})) []))
     = 404%nat).
Proof.
  assert (rejected (codec:=Toy.codec) Toy.secret (Toy.env 86401000000)
            [Toy.alice_doc] (Some "Bearer H.E.mac-s3cret-3") 401) as H1.
  { apply token_invalid with (token := "H.E.mac-s3cret-3");
      [reflexivity..|].
    apply expired with (si := "H.E") (header := jwt_header) (text := "E")
                       (sig := "mac-s3cret-3") (payload := Toy.claims_exp)
                       (v := VInt 86401) (exp := 86401);
      [vm_compute; reflexivity..|simpl; lia]. }
  assert (rejected (codec:=Toy.codec) Toy.secret (Toy.env 0)
            [Toy.alice_doc] (Some "Bearer H.N.mac-s3cret-3") 401) as H2.
  { apply token_invalid with (token := "H.N.mac-s3cret-3");
      [reflexivity..|].
    apply bad_expiry with (si := "H.N") (header := jwt_header) (text := "N")
                          (sig := "mac-s3cret-3")
                          (payload := Toy.claims_null_exp) (v := VNone);
      vm_compute; reflexivity. }
  assert (rejected (codec:=Toy.codec) Toy.secret (Toy.env 0)
            [] (Some "Bearer H.E.mac-s3cret-3") 404) as H3.
  { apply subject_unmatched with (token := "H.E.mac-s3cret-3")
                                 (payload := Toy.claims_exp);
      vm_compute; reflexivity. }
  split; [|split]; (split; [assumption|]).
  - exact (proj1 (auth_failures_401_404 Toy.secret _ _ _ _ None H1)).
  - exact (proj1 (auth_failures_401_404 Toy.secret _ _ _ _ None H2)).
  - exact (proj1 (proj2 (auth_failures_401_404 Toy.secret _ _ _ _
                           (Some {[ "age" := VStr "thirty" ]}) H3))).
Defined.

(** Against C1 as stated.  A [PUT /auth/profile] whose body is no JSON is
    answered 422 before the Authorization header is looked at: without
    a header, and with a token that is not one, the answer is 422 where
    the same request with a JSON body, or without a body, is answered
    401. *)
Lemma malformed_body_precedes_header :
  rejected (codec:=Toy.codec) Toy.secret (Toy.env 0) [Toy.alice_doc] None 401 /\
  status_of (fst (put_auth_profile (codec:=Toy.codec) Toy.secret (Toy.env 0)
                    None body_malformed [Toy.alice_doc])) = 422%nat /\
  status_of (fst (put_auth_profile (codec:=Toy.codec) Toy.secret (Toy.env 0)
                    (Some "Bearer invalid_token_here") body_malformed
                    [Toy.alice_doc])) = 422%nat /\
  status_of (fst (put_auth_profile (codec:=Toy.codec) Toy.secret (Toy.env 0)
                    None (body_json (Some ∅)) [Toy.alice_doc])) = 401%nat /\
  status_of (fst (put_auth_profile (codec:=Toy.codec) Toy.secret (Toy.env 0)
                    None (body_json None) [Toy.alice_doc])) = 401%nat.
Proof. split; [apply header_missing|]. repeat split. Qed.

(** C4 at Alice's claims, issued one and a half seconds after the epoch. *)
Lemma create_access_token_spec_witness :
  map_Forall (fun _ v => json_serializable v) Toy.claims /\
  create_access_token (codec:=Toy.codec) Toy.secret 1500000 Toy.claims
    = inr "H.E.mac-s3cret-3" /\
  Toy.claims_exp !! "exp" = Some (VInt (1 + 24 * 3600)).
Proof.
  assert (map_Forall (fun _ v => json_serializable v) Toy.claims) as H.
  { apply (bool_decide_unpack _). vm_compute. exact I. }
  split; [exact H|].
  destruct (create_access_token_spec (codec:=Toy.codec) Toy.secret 1500000
              Toy.claims H) as (Htoken & _ & Hexp & _).
  split.
  - rewrite Htoken. vm_compute. reflexivity.
  - vm_compute. reflexivity.
Defined.

(** The lifetime of the token issued for Alice's claims one and a half
    seconds after the epoch, read a microsecond before its expiry and at
    its expiry. *)
Lemma issued_token_lifetime_witness :
  map_Forall (fun _ v => json_serializable v) Toy.claims /\
  Toy.claims !! "sub" = Some (VStr "g-alice") /\
  codec_round_trips (codec:=Toy.codec) Toy.secret Toy.claims_exp /\
  (exists token,
     create_access_token (codec:=Toy.codec) Toy.secret 1500000 Toy.claims
       = inr token /\
     verify_token (codec:=Toy.codec) Toy.secret token 86400999999
       = inr Toy.claims_exp) /\
  (exists token,
     create_access_token (codec:=Toy.codec) Toy.secret 1500000 Toy.claims
       = inr token /\
     verify_token (codec:=Toy.codec) Toy.secret token 86401000000
       = inl (HTTPException 401 "Token expired")).
Proof.
  assert (map_Forall (fun _ v => json_serializable v) Toy.claims) as Hd.
  { apply (bool_decide_unpack _). vm_compute. exact I. }
  assert (forall k, is_Some (Toy.claims !! k) -> k ∈ ["sub"; "email"; "name"])
    as Hkeys.
  { intros k [v Hv]. unfold Toy.claims in Hv.
    apply lookup_insert_Some in Hv as [[<- _]|[_ Hv]];
      [apply elem_of_cons; by left|].
    apply lookup_insert_Some in Hv as [[<- _]|[_ Hv]];
      [apply elem_of_cons; right; apply elem_of_cons; by left|].
    apply lookup_singleton_Some in Hv as [<- _].
    do 2 (apply elem_of_cons; right). apply elem_of_cons. by left. }
  assert (Toy.claims !! "sub" = Some (VStr "g-alice")) as Hsub
    by (vm_compute; reflexivity).
  assert (string_claim Toy.claims "sub") as Hstr.
  { intros v Hv. rewrite Hsub in Hv. injection Hv as <-. by eexists. }
  assert (codec_round_trips (codec:=Toy.codec) Toy.secret Toy.claims_exp)
    as Hrt.
  { unfold codec_round_trips. split_and!; vm_compute; reflexivity. }
  split; [exact Hd|]. split; [exact Hsub|]. split; [exact Hrt|]. split.
  - exact (issued_token_lifetime (codec:=Toy.codec) Toy.secret 1500000
             Toy.claims 86400999999 Hd Hkeys Hstr Hrt).
  - exact (issued_token_lifetime (codec:=Toy.codec) Toy.secret 1500000
             Toy.claims 86401000000 Hd Hkeys Hstr Hrt).
Defined.

(** The token of that issuance verifies until 24 hours and one second
    after the epoch and is expired from then on. *)
Example issued_token_lifetime_example :
  verify_token (codec:=Toy.codec) Toy.secret "H.E.mac-s3cret-3" 86400999999
    = inr Toy.claims_exp /\
  verify_token (codec:=Toy.codec) Toy.secret "H.E.mac-s3cret-3" 86401000000
    = inl (HTTPException 401 "Token expired") /\
  verify_token (codec:=Toy.codec) Toy.secret "H.E.mac-other-3" 0
    = inl (HTTPException 401 "Invalid token") /\
  verify_token (codec:=Toy.codec) Toy.secret "invalid_token_here" 0
    = inl (HTTPException 401 "Invalid token").
Proof. split_and!; vm_compute; reflexivity. Qed.

(** C9 at a token for Alice's claims without an expiry, checked at the
    epoch and about three hundred years later. *)
Lemma verify_token_without_exp_witness :
  correctly_signed (codec:=Toy.codec) Toy.secret "H.P.mac-s3cret-3" Toy.claims /\
  Toy.claims !! "exp" = None /\
  claims_pass (codec:=Toy.codec) Toy.claims 0 /\
  verify_token (codec:=Toy.codec) Toy.secret "H.P.mac-s3cret-3" 0
    = inr Toy.claims /\
  verify_token (codec:=Toy.codec) Toy.secret "H.P.mac-s3cret-3"
    10000000000000000 = inr Toy.claims.
Proof.
  assert (correctly_signed (codec:=Toy.codec) Toy.secret
            "H.P.mac-s3cret-3" Toy.claims) as Hs.
  { exists "H.P", jwt_header, "P", "mac-s3cret-3".
    split_and!; [vm_compute; reflexivity|intros H; discriminate H
                |vm_compute; reflexivity..]. }
  assert (Toy.claims !! "exp" = None) as He by (vm_compute; reflexivity).
  assert (claims_pass (codec:=Toy.codec) Toy.claims 0) as Hp
    by closed_claims_pass.
  split_and!; [exact Hs|exact He|exact Hp|..];
    apply (verify_token_without_exp (codec:=Toy.codec) Toy.secret _ _ 0
             Hs He Hp); lia.
Defined.

(** Against C9 as stated.  A token for Alice's claims and the audience
    "app", correctly signed with the secret and without an expiry, is
    refused at every clock reading: no audience is expected. *)
Lemma audience_token_refused :
  correctly_signed (codec:=Toy.codec) Toy.secret "H.A.mac-s3cret-3"
    Toy.claims_aud /\
  Toy.claims_aud !! "exp" = None /\
  Toy.claims_aud !! "aud" = Some (VStr "app") /\
  forall now,
    verify_token (codec:=Toy.codec) Toy.secret "H.A.mac-s3cret-3" now
    = inl (HTTPException 401 "Invalid token").
Proof.
  split_and!.
  - exists "H.A", jwt_header, "A", "mac-s3cret-3".
    split_and!; [vm_compute; reflexivity|intros H; discriminate H
                |vm_compute; reflexivity..].
  - vm_compute. reflexivity.
  - vm_compute. reflexivity.
  - intros now. vm_compute. reflexivity.
Qed.

Lemma first_login_succeeded :
  login_succeeded None (fst first_login).
Proof. exists "H.E.mac-s3cret-3". vm_compute. reflexivity. Defined.

Lemma second_login_succeeded :
  login_succeeded None (fst second_login).
Proof. exists "H.?.mac-s3cret-3". vm_compute. reflexivity. Defined.

(** C6 at a provider profile without an email, with no front-end address
    configured. *)
Example missing_email_redirect :
  google_auth (codec:=Toy.codec) Toy.secret None login_without_email
    [Toy.alice_doc]
  = (inr (RedirectResponse
            "https://dfe70bfd-0f3f-4410-b7d9-a3ddbd0a6aab.preview.emergentagent.com/auth/error?message='email'"),
     [Toy.alice_doc]).
Proof. vm_compute. reflexivity. Qed.

(** C3 at Alice's first login: her bio "hello" and her age 41 are gone. *)
Lemma login_resets_bio_and_age_witness :
  (Toy.alice_doc !! "about_me" = Some (VStr "hello") /\
   Toy.alice_doc !! "age" = Some (VInt 41)) /\
  exists d,
    find_one alice_query (snd first_login) = Some d /\
    d !! "about_me" = Some (VStr "") /\
    d !! "age" = Some VNone.
Proof.
  split; [split; vm_compute; reflexivity|].
  apply (login_resets_bio_and_age (codec:=Toy.codec) Toy.secret None
           (Toy.login 1000000) [Toy.alice_doc] (fst first_login)
           (snd first_login) "g-alice").
  - reflexivity.
  - reflexivity.
  - exact first_login_succeeded.
Defined.

(** C10 at Alice's first login: her id "u-1" becomes the fresh "u-2" and
    her creation time becomes the time of the login. *)
Lemma login_replaces_id_and_created_at_witness :
  (Toy.alice_doc !! "id" = Some (VStr "u-1") /\
   Toy.alice_doc !! "created_at" = Some (VDatetime 1000000)) /\
  exists i d,
    [Toy.alice_doc] !! i = Some Toy.alice_doc /\
    snd first_login = <[i := d]> [Toy.alice_doc] /\
    find_one alice_query (snd first_login) = Some d /\
    d !! "id" = Some (VStr "u-2") /\
    d !! "created_at" = Some (VDatetime (bson_datetime 1000000)).
Proof.
  split; [split; vm_compute; reflexivity|].
  apply (login_replaces_id_and_created_at (codec:=Toy.codec) Toy.secret None
           (Toy.login 1000000) [Toy.alice_doc] (fst first_login)
           (snd first_login) "g-alice" Toy.alice_doc).
  - reflexivity.
  - vm_compute. reflexivity.
  - reflexivity.
  - exact first_login_succeeded.
Defined.

(** C2 at Alice's two logins. *)
Lemma two_logins_one_document_witness :
  (count_documents alice_query [Toy.alice_doc] <= 1)%nat /\
  count_documents alice_query (snd second_login) = 1%nat /\
  length (snd second_login) = 1%nat /\
  exists d,
    find_one alice_query (snd second_login) = Some d /\
    d !! "last_login" = Some (VDatetime (bson_datetime 5000001)) /\
    d !! "google_id" = Some (VStr "g-alice").
Proof.
  assert (count_documents alice_query [Toy.alice_doc] <= 1)%nat as Hc.
  { vm_compute. lia. }
  split; [exact Hc|].
  exact (two_logins_one_document (codec:=Toy.codec) Toy.secret None
           (Toy.login 1000000) (Toy.login 5000000) [Toy.alice_doc]
           (snd first_login) (snd second_login)
           (fst first_login) (fst second_login) "g-alice"
           eq_refl eq_refl Hc eq_refl first_login_succeeded
           eq_refl second_login_succeeded).
Defined.

(** C5 at Alice's request to change her name, her email and her id: the
    name changes, the rest stays. *)
Lemma profile_update_frame_witness :
  [Toy.alice_doc] !! 0%nat = Some Toy.alice_doc /\
  exists d',
    snd (put_auth_profile (codec:=Toy.codec) Toy.secret (Toy.env 0)
           (Some "Bearer H.P.mac-s3cret-3")
           (body_json
              (Some {[ "name" := VStr "Bob"; "email" := VStr "bob@example.com";
                       "google_id" := VStr "g-bob"; "id" := VStr "u-9" ]}))
           [Toy.alice_doc]) !! 0%nat = Some d' /\
    (forall k, k ∉ ["name"; "about_me"; "age"] -> d' !! k = Toy.alice_doc !! k).
Proof.
  split; [reflexivity|].
  destruct (profile_update_frame (codec:=Toy.codec) Toy.secret (Toy.env 0)
              (Some "Bearer H.P.mac-s3cret-3")
              (body_json
                 (Some {[ "name" := VStr "Bob";
                          "email" := VStr "bob@example.com";
                          "google_id" := VStr "g-bob"; "id" := VStr "u-9" ]}))
              [Toy.alice_doc] 0%nat Toy.alice_doc eq_refl)
    as (_ & d' & Hd' & Hframe & _).
  exists d'. split; [exact Hd'|exact Hframe].
Defined.

(** C8 at Alice's request with the age "thirty". *)
Lemma profile_update_rejects_invalid_age_witness :
  ({[ "age" := VStr "thirty" ]} : dict) !! "age" = Some (VStr "thirty") /\
  int_validator (codec:=Toy.codec) (VStr "thirty") = None /\
  status_of (fst (put_auth_profile (codec:=Toy.codec) Toy.secret (Toy.env 0)
                    (Some "Bearer H.P.mac-s3cret-3")
                    (body_json (Some {[ "age" := VStr "thirty" ]}))
                    [Toy.alice_doc]))
    = 422%nat /\
  snd (put_auth_profile (codec:=Toy.codec) Toy.secret (Toy.env 0)
         (Some "Bearer H.P.mac-s3cret-3")
         (body_json (Some {[ "age" := VStr "thirty" ]})) [Toy.alice_doc])
    = [Toy.alice_doc].
Proof.
  assert (fst (get_current_user (codec:=Toy.codec) Toy.secret (Toy.env 0)
                 (Some "Bearer H.P.mac-s3cret-3") [Toy.alice_doc])
          = inr Toy.alice) as Hu by (vm_compute; reflexivity).
  assert (({[ "age" := VStr "thirty" ]} : dict) !! "age"
          = Some (VStr "thirty")) as Hb by reflexivity.
  assert (int_validator (codec:=Toy.codec) (VStr "thirty") = None) as Hi
    by reflexivity.
  split; [exact Hb|]. split; [exact Hi|].
  apply (profile_update_rejects_invalid_age (codec:=Toy.codec) Toy.secret
           (Toy.env 0) (Some "Bearer H.P.mac-s3cret-3")
           {[ "age" := VStr "thirty" ]} (VStr "thirty") [Toy.alice_doc]
           Toy.alice Hu Hb).
  - discriminate.
  - exact Hi.
Defined.

(** * Further properties *)

(** ** What a verified token guarantees *)

Section VerifyFacts.
Context {codec : Codec}.
Variable SECRET_KEY : string.

(** X2. Verification is sound: [verify_token] returns a payload only for
    a token that parses into three segments, names HS256 in its header,
    carries the HMAC of its first two segments under the secret, and
    holds that payload; and an integer expiry in the payload lies after
    the clock reading. *)
Theorem verify_token_sound token now payload :
  verify_token SECRET_KEY token now = inr payload ->
  correctly_signed SECRET_KEY token payload /\
  (forall exp, payload !! "exp" = Some (VInt exp) -> now < exp * 1000000).
Proof.
  intros [Hs Hc]%verify_token_decode%jwt_decode_payload.
  split; [done|]. intros exp Hexp.
  apply validate_claims_None in Hc as (_ & _ & He & _).
  unfold validate_exp in He. rewrite Hexp in He. simpl in He.
  case_bool_decide; [done|lia].
Qed.

End VerifyFacts.

(** ** Reading the Authorization header *)

Lemma split_no_sep sep s : has_char sep s = false -> split sep s = [s].
Proof.
  induction s as [|x s IH]; simpl; [done|].
  intros [Hx Hs]%orb_false_elim. by rewrite Hx, IH.
Qed.

Lemma split_app_sep sep a b :
  has_char sep a = false ->
  split sep (a +:+ String sep b) = a :: split sep b.
Proof.
  induction a as [|x a IH]; simpl.
  - intros _. change ("" +:+ String sep b) with (String sep b).
    simpl. by rewrite Ascii.eqb_refl.
  - intros [Hx Ha]%orb_false_elim.
    change (String x a +:+ String sep b) with (String x (a +:+ String sep b)).
    simpl. by rewrite Hx, IH.
Qed.

Lemma startswith_bearer rest : startswith ("Bearer " +:+ rest) "Bearer " = true.
Proof. apply startswith_app. by exists rest. Qed.

Lemma split_bearer_field rest :
  split " " ("Bearer " +:+ rest) !! 1%nat = head (split " " rest).
Proof.
  destruct (split_bearer ("Bearer " +:+ rest) (startswith_bearer rest))
    as (rest' & Heq & ->).
  by apply (inj (String.app _)) in Heq as <-.
Qed.

Section HeaderFacts.
Context {codec : Codec}.
Variable SECRET_KEY : string.

(** What the dependency does with a header that carries the scheme. *)
Lemma get_current_user_bearer env h token db :
  startswith h "Bearer " = true ->
  split " " h !! 1%nat = Some token ->
  get_current_user SECRET_KEY env (Some h) db =
  match verify_token SECRET_KEY token (jwt_now env) with
  | inl e => (inl e, db)
  | inr payload =>
      match find_one {[ "google_id" := get_default payload "sub" VNone ]} db with
      | None => (inl (HTTPException 404 "User not found"), db)
      | Some user => (UserProfile.of_dict (dependency_factories env) user, db)
      end
  end.
Proof.
  intros Hs Ht. unfold get_current_user, raise, bind, lift.
  rewrite Hs, Ht. rewrite bool_decide_false
    by (by apply (startswith_nonempty _ "Bearer ")).
  simpl. destruct (verify_token _ _ _) as [e|payload]; [done|].
  by destruct (find_one _ db) as [user|].
Qed.

Lemma get_current_user_inv env authorization db u db' :
  get_current_user SECRET_KEY env authorization db = (inr u, db') ->
  exists h token payload user,
    authorization = Some h /\
    startswith h "Bearer " = true /\
    split " " h !! 1%nat = Some token /\
    verify_token SECRET_KEY token (jwt_now env) = inr payload /\
    find_one {[ "google_id" := get_default payload "sub" VNone ]} db
      = Some user /\
    UserProfile.of_dict (dependency_factories env) user = inr u /\
    db' = db.
Proof.
  destruct authorization as [h|]; [|done].
  destruct (startswith h "Bearer ") eqn:Hs; cycle 1.
  { unfold get_current_user, raise. rewrite Hs. simpl.
    by rewrite orb_true_r. }
  destruct (split_bearer_token h Hs) as [token Ht].
  rewrite (get_current_user_bearer env h token db Hs Ht).
  destruct (verify_token _ _ _) as [e|payload] eqn:Hv; [done|].
  destruct (find_one _ db) as [user|] eqn:Hf; [|done].
  intros [= Hof <-]. by exists h, token, payload, user.
Qed.

(** X3. Only the second blank-separated field of the header is read as
    the token: whatever follows a further blank is ignored, and a header
    whose scheme is followed by nothing, or by another blank, carries the
    empty token and is answered 401. *)
Theorem bearer_token_is_second_field env db token rest :
  has_char " " token = false ->
  get_current_user SECRET_KEY env
    (Some ("Bearer " +:+ token +:+ " " +:+ rest)) db
  = get_current_user SECRET_KEY env (Some ("Bearer " +:+ token)) db /\
  (token = "" ->
   get_current_user SECRET_KEY env (Some ("Bearer " +:+ token)) db
   = (inl (HTTPException 401 "Invalid token"), db)).
Proof.
  intros Htok.
  assert (split " " ("Bearer " +:+ token) !! 1%nat = Some token) as H1.
  { by rewrite split_bearer_field, split_no_sep. }
  assert (split " " ("Bearer " +:+ token +:+ " " +:+ rest) !! 1%nat
          = Some token) as H2.
  { rewrite split_bearer_field.
    change (token +:+ " " +:+ rest) with (token +:+ String " " rest).
    by rewrite split_app_sep. }
  split.
  - rewrite (get_current_user_bearer env _ token db (startswith_bearer _) H2).
    by rewrite (get_current_user_bearer env _ token db (startswith_bearer _) H1).
  - intros ->.
    by rewrite (get_current_user_bearer env _ "" db (startswith_bearer _) H1).
Qed.

End HeaderFacts.

(** ** From the login to the profile *)

Section SessionFacts.
Context {codec : Codec}.
Variable SECRET_KEY : string.
Variable FRONTEND_URL : option string.

Lemma session_claims_serializable sub email name :
  map_Forall (fun _ v => json_serializable v)
    ({[ "sub" := VStr sub; "email" := VStr email; "name" := VStr name ]} : dict).
Proof.
  repeat apply map_Forall_insert_2; done.
Qed.

(** The token of a login, spelled out. *)
Lemma create_access_token_session utcnow sub email name token :
  create_access_token SECRET_KEY utcnow
    {[ "sub" := VStr sub; "email" := VStr email; "name" := VStr name ]}
    = inr token ->
  let claims := session_claims sub email name (timegm utcnow + 24 * 3600) in
  token = signing_input_of claims +:+ "." +:+
          base64url_encode (hmac_sha256 SECRET_KEY (signing_input_of claims)).
Proof.
  unfold create_access_token, jwt_encode.
  rewrite jwt_payload_expiry, timegm_plus_hours
    by apply session_claims_serializable.
  rewrite decide_True.
  - by intros [= <-].
  - apply map_Forall_insert_2; [done|]. apply session_claims_serializable.
Qed.

Lemma session_claims_pass sub email name exp now :
  claims_pass (session_claims sub email name exp) now.
Proof.
  unfold claims_pass, not_after, string_claim, session_claims.
  split_and!; intros v Hv; vm_compute in Hv; try discriminate Hv.
  injection Hv as <-. by exists sub.
Qed.

Lemma verify_issued claims now :
  codec_round_trips SECRET_KEY claims ->
  validate_claims claims now = None ->
  verify_token SECRET_KEY
    (signing_input_of claims +:+ "." +:+
     base64url_encode (hmac_sha256 SECRET_KEY (signing_input_of claims))) now
  = inr claims.
Proof.
  intros Hrt He.
  destruct (jwt_load_issued SECRET_KEY claims Hrt) as (text & Hl & Ht).
  unfold verify_token.
  rewrite (correctly_signed_decode SECRET_KEY _ claims now).
  - by rewrite He.
  - eexists _, _, _, _. split_and!; [exact Hl|done..].
Qed.

Lemma user_data_of_dict env user_info sub email name picture dflt (d : dict) :
  get_default user_info "picture" (VStr "") = VStr picture ->
  (forall k v,
     user_data env user_info (VStr sub) (VStr email) (VStr name) !! k = Some v ->
     d !! k = Some (bson_value v)) ->
  UserProfile.of_dict dflt d = inr (fresh_profile env sub email name picture).
Proof.
  intros Hp Hfields. unfold UserProfile.of_dict, model_field.
  rewrite (Hfields "id" (VStr (uuid4 env))) by done.
  rewrite (Hfields "google_id" (VStr sub)) by done.
  rewrite (Hfields "email" (VStr email)) by done.
  rewrite (Hfields "name" (VStr name)) by done.
  rewrite (Hfields "picture" (VStr picture)) by (by rewrite <- Hp).
  rewrite (Hfields "about_me" (VStr "")) by done.
  rewrite (Hfields "age" VNone) by done.
  rewrite (Hfields "created_at" (VDatetime (utcnow_created_at env))) by done.
  rewrite (Hfields "last_login" (VDatetime (utcnow_last_login env))) by done.
  done.
Qed.

(** X4. From the login to the profile.  After a successful callback for a
    provider profile with a string subject id, email and name, the token
    in the redirect, presented as a Bearer token before its expiry, makes
    [GET /auth/me] answer with the profile that the login wrote: the
    fresh id, the provider's subject id, email, name and picture, an
    empty bio, no age, and the two clock readings of the login at
    millisecond precision. *)
Theorem login_then_me env db token db' renv sub email name picture :
  provider_profile env sub email name picture ->
  google_auth SECRET_KEY FRONTEND_URL env db
    = (inr (RedirectResponse (callback_url FRONTEND_URL token)), db') ->
  codec_round_trips SECRET_KEY
    (session_claims sub email name (timegm (utcnow_token env) + 24 * 3600)) ->
  has_char " " token = false ->
  jwt_now renv < (timegm (utcnow_token env) + 24 * 3600) * 1000000 ->
  get_auth_me SECRET_KEY renv (Some ("Bearer " +:+ token)) db'
  = (inr (fresh_profile env sub email name picture), db').
Proof.
  intros (u & Ho & Hsub & Hemail & Hname & Hpic) Hg Hrt Hsp Hnow.
  destruct (google_auth_success_token SECRET_KEY FRONTEND_URL _ _ _ _ Hg)
    as (u' & sub' & email' & name' & Ho' & Hs' & He' & Hn' & _ & -> & Hc).
  rewrite Ho in Ho'. injection Ho' as <-.
  rewrite Hsub in Hs'. injection Hs' as <-.
  rewrite Hemail in He'. injection He' as <-.
  rewrite Hname in Hn'. injection Hn' as <-.
  apply create_access_token_session in Hc. simpl in Hc.
  set (claims := session_claims sub email name
                   (timegm (utcnow_token env) + 24 * 3600)) in *.
  assert (verify_token SECRET_KEY token (jwt_now renv) = inr claims) as Hv.
  { rewrite Hc. apply verify_issued; [done|].
    rewrite (claims_pass_validate claims) by apply session_claims_pass.
    unfold validate_exp, claims, session_claims. rewrite lookup_insert_eq.
    simpl. by rewrite bool_decide_false by lia. }
  assert (get_default claims "sub" VNone = VStr sub) as Hget by done.
  destruct (find_one_update_one_upsert {[ "google_id" := VStr sub ]}
              (user_data env u (VStr sub) (VStr email) (VStr name)) db)
    as (d & Hd & Hfields); [apply user_data_google_id|].
  unfold get_auth_me, bind, get_current_user_profile, ret.
  rewrite (get_current_user_bearer SECRET_KEY renv _ token);
    [|apply startswith_bearer|by rewrite split_bearer_field, split_no_sep].
  rewrite Hv, Hget, Hd.
  by rewrite (user_data_of_dict env u sub email name picture _ d Hpic Hfields).
Qed.

End SessionFacts.

(** ** What a login writes *)

Lemma update_one_upsert_touch (q upd : dict) (coll : collection) :
  exists i,
    (forall j, j <> i -> update_one q upd true coll !! j = coll !! j) /\
    (length coll <= length (update_one q upd true coll) <= S (length coll))%nat.
Proof.
  unfold update_one.
  destruct (list_find _ coll) as [[i d]|].
  - exists i. split.
    + intros j Hj. by rewrite list_lookup_insert_ne.
    + rewrite length_insert. lia.
  - exists (length coll). split.
    + intros j Hj. destruct (decide (j < length coll)%nat).
      * by rewrite lookup_app_l.
      * rewrite !lookup_ge_None_2; [done|lia|].
        rewrite length_app. simpl. lia.
    + rewrite length_app. simpl. lia.
Qed.

Section LoginWrites.
Context {codec : Codec}.
Variable SECRET_KEY : string.
Variable FRONTEND_URL : option string.

Lemma google_auth_store env db :
  snd (google_auth SECRET_KEY FRONTEND_URL env db) = db \/
  exists user_info sub email name,
    oauth_outcome env = inr (Some user_info) /\
    user_info !! "sub" = Some sub /\
    user_info !! "email" = Some email /\
    user_info !! "name" = Some name /\
    snd (google_auth SECRET_KEY FRONTEND_URL env db)
    = update_one {[ "google_id" := sub ]}
        (user_data env user_info sub email name) true db.
Proof.
  unfold google_auth, try_except, google_auth_try, bind, lift, raise, ret,
    getitem.
  destruct (oauth_outcome env) as [e|[u|]]; [by left| |by left].
  destruct (decide (u = ∅)); [by left|].
  destruct (u !! "sub") as [sub|] eqn:Hs; [|by left].
  destruct (u !! "email") as [email|] eqn:He; [|by left].
  destruct (u !! "name") as [name|] eqn:Hn; [|by left].
  rewrite login_upsert.
  destruct (users_fault env); [by left|].
  destruct (decide (bson_encodable_doc _)); [|by left].
  right. exists u, sub, email, name.
  split_and!; [reflexivity|assumption..|].
  by destruct (create_access_token _ _ _).
Qed.

(** X5. A callback writes at most one document: whether it succeeds or
    fails, every position of the [users] collection but one holds what it
    held, and the collection grows by at most one document and never
    shrinks. *)
Theorem login_touches_one_document env db :
  let db' := snd (google_auth SECRET_KEY FRONTEND_URL env db) in
  (exists i, forall j, j <> i -> db' !! j = db !! j) /\
  (length db <= length db' <= S (length db))%nat.
Proof.
  simpl. destruct (google_auth_store env db)
    as [->|(u & sub & email & name & _ & _ & _ & _ & ->)].
  - split; [by exists 0%nat|lia].
  - destruct (update_one_upsert_touch {[ "google_id" := sub ]}
                (user_data env u sub email name) db) as (i & Hi & Hlen).
    split; [by exists i|done].
Qed.

(** X6. A callback that does not end in the redirect with a token has
    written nothing, as long as the provider's profile information holds
    JSON values (which is all a provider can send). *)
Theorem failed_login_writes_nothing env db :
  (forall user_info,
     oauth_outcome env = inr (Some user_info) ->
     map_Forall (fun _ v => json_serializable v) user_info) ->
  ~ login_succeeded FRONTEND_URL
      (fst (google_auth SECRET_KEY FRONTEND_URL env db)) ->
  snd (google_auth SECRET_KEY FRONTEND_URL env db) = db.
Proof.
  intros Hjson.
  unfold google_auth, try_except, google_auth_try, bind, lift, raise, ret,
    getitem.
  destruct (oauth_outcome env) as [e|[u|]] eqn:Ho; [done| |done].
  specialize (Hjson u eq_refl).
  destruct (decide (u = ∅)); [done|].
  destruct (u !! "sub") as [sub|] eqn:Hs; [|done].
  destruct (u !! "email") as [email|] eqn:He; [|done].
  destruct (u !! "name") as [name|] eqn:Hn; [|done].
  rewrite login_upsert.
  destruct (users_fault env); [done|].
  destruct (decide (bson_encodable_doc _)); [|done].
  assert (map_Forall (fun _ v => json_serializable v)
            ({[ "sub" := sub; "email" := email; "name" := name ]} : dict))
    as Hclaims.
  { repeat apply map_Forall_insert_2;
      [by eapply Hjson..|apply map_Forall_empty]. }
  unfold create_access_token, jwt_encode.
  rewrite jwt_payload_expiry by done.
  rewrite decide_True by (by apply map_Forall_insert_2).
  simpl. intros Hfail. destruct Hfail. by eexists.
Qed.

End LoginWrites.

(** ** One document per subject *)

Lemma doc_matches_subject (sub : string) (d : dict) :
  doc_matches (bson_doc {[ "google_id" := VStr sub ]}) d <->
  d !! "google_id" = Some (VStr sub).
Proof.
  unfold doc_matches, bson_doc. rewrite map_fmap_singleton.
  rewrite map_Forall_singleton. done.
Qed.

Lemma bson_value_str v s : bson_value v = VStr s -> v = VStr s.
Proof. by destruct v. Qed.

Lemma count_same_subjects (sub : string) (db db' : collection) :
  Forall2 (fun d d' : dict => d !! "google_id" = d' !! "google_id") db db' ->
  count_documents {[ "google_id" := VStr sub ]} db'
  = count_documents {[ "google_id" := VStr sub ]} db.
Proof.
  unfold count_documents. induction 1 as [|d d' db db' Hd _ IH]; [done|].
  destruct (decide (d !! "google_id" = Some (VStr sub))) as [Hs|Hs].
  - rewrite !filter_cons_True; [simpl; by rewrite IH|..];
      apply doc_matches_subject; congruence.
  - rewrite !filter_cons_False; [done|..];
      rewrite doc_matches_subject; congruence.
Qed.

Lemma count_update_one_other (sub : string) (v : value) (upd : dict)
    (coll : collection) :
  v <> VStr sub ->
  upd !! "google_id" = Some v ->
  count_documents {[ "google_id" := VStr sub ]}
    (update_one {[ "google_id" := v ]} upd true coll)
  = count_documents {[ "google_id" := VStr sub ]} coll.
Proof.
  intros Hv Hupd. unfold update_one, count_documents.
  assert (forall d0 : dict,
            ~ doc_matches (bson_doc {[ "google_id" := VStr sub ]})
                (bson_doc upd ∪ d0)) as Hnew.
  { intros d0. rewrite doc_matches_subject.
    rewrite (set_fields_lookup upd d0 _ _ Hupd).
    intros [= H%bson_value_str]. done. }
  destruct (list_find _ coll) as [[i d]|] eqn:Hf.
  - apply list_find_Some in Hf as (Hi & Hd & _).
    apply (filter_insert_length _ _ _ d); [done|].
    split; [|by intros ?%Hnew].
    rewrite doc_matches_subject. intros Hg. exfalso.
    specialize (Hd "google_id" (bson_value v)).
    rewrite bson_doc_lookup, lookup_singleton_eq in Hd.
    specialize (Hd eq_refl). rewrite Hg in Hd.
    destruct v; simpl in Hd; [destruct Hd as [Hd|Hd]|..]; congruence.
  - rewrite filter_app, filter_cons_False by apply Hnew.
    by rewrite app_nil_r.
Qed.

Section Invariant.
Context {codec : Codec}.
Variable SECRET_KEY : string.
Variable FRONTEND_URL : option string.

Lemma put_auth_profile_store env authorization body db :
  snd (put_auth_profile SECRET_KEY env authorization body db) = db \/
  exists profile_update current_user,
    snd (put_auth_profile SECRET_KEY env authorization body db)
    = snd (update_user_profile (handler_factories env) profile_update
             current_user db).
Proof.
  unfold put_auth_profile, read_body.
  destruct body as [| |body]; [by left..|]. unfold bind.
  pose proof (get_current_user_reads SECRET_KEY env authorization db) as Hdb.
  destruct (get_current_user _ _ _ db) as [[e|user] db1];
    simpl in Hdb; subst db1; [by left|].
  unfold put_auth_profile_as.
  destruct (UserProfileUpdate.of_body body) as [profile_update|];
    [|by left].
  right. by exists profile_update, user.
Qed.

Lemma update_user_profile_subjects dflt profile_update current_user db :
  Forall2 (fun d d' : dict => d !! "google_id" = d' !! "google_id") db
    (snd (update_user_profile dflt profile_update current_user db)).
Proof.
  apply Forall2_same_length_lookup_2.
  - by rewrite update_user_profile_length.
  - intros i d d' Hd Hd'.
    destruct (update_user_profile_frame dflt profile_update current_user
                db i d Hd) as (d'' & Hd'' & Hframe & _).
    rewrite Hd' in Hd''. injection Hd'' as <-.
    symmetry. apply Hframe.
    repeat (apply not_elem_of_cons; split; [done|]). apply not_elem_of_nil.
Qed.

Lemma serve_unique_subjects users req :
  unique_subjects users ->
  unique_subjects (serve SECRET_KEY FRONTEND_URL users req).
Proof.
  intros Hu sub. destruct req as [env|env a|env a body|]; simpl.
  - destruct (google_auth_store SECRET_KEY FRONTEND_URL env users)
      as [->|(u & v & email & name & _ & _ & _ & _ & ->)]; [apply Hu|].
    destruct (decide (v = VStr sub)) as [->|Hv].
    + destruct (count_update_one_upsert {[ "google_id" := VStr sub ]}
                  (user_data env u (VStr sub) email name) users) as [-> _];
        [apply user_data_google_id|].
      specialize (Hu sub). lia.
    + rewrite count_update_one_other; [apply Hu|done..].
  - unfold get_auth_me, bind, get_current_user_profile, ret.
    pose proof (get_current_user_reads SECRET_KEY env a users) as Hdb.
    destruct (get_current_user _ _ _ users) as [[e|user] db1];
      simpl in *; subst db1; apply Hu.
  - destruct (put_auth_profile_store env a body users)
      as [->|(pu & cu & ->)]; [apply Hu|].
    rewrite (count_same_subjects sub users); [apply Hu|].
    apply update_user_profile_subjects.
  - apply Hu.
Qed.

(** X7. No run of requests gives a subject two documents: if every
    subject id has at most one document in [users], the same holds after
    any sequence of login callbacks, profile reads, profile updates and
    logouts, whatever their inputs and whether they succeed or fail. *)
Theorem unique_subjects_preserved reqs users :
  unique_subjects users ->
  unique_subjects (serve_all SECRET_KEY FRONTEND_URL reqs users).
Proof.
  unfold serve_all. revert users.
  induction reqs as [|req reqs IH]; intros users Hu; [done|].
  simpl. apply IH. by apply serve_unique_subjects.
Qed.

End Invariant.

(** ** Updating the profile *)

Section UpdateFacts.
Context {codec : Codec}.
Variable SECRET_KEY : string.

Lemma model_field_str (d : dict) k dflt s :
  model_field str_validator d k dflt = Some s ->
  d !! k = Some (VStr s) \/ (d !! k = None /\ dflt = Some s).
Proof.
  unfold model_field. destruct (d !! k) as [v|]; [|by right].
  destruct v; simpl; try done. intros [= ->]. by left.
Qed.

Lemma of_dict_google_id dflt (user : dict) u :
  UserProfile.of_dict dflt user = inr u ->
  user !! "google_id" = Some (VStr (UserProfile.google_id u)).
Proof.
  unfold UserProfile.of_dict.
  destruct (model_field str_validator user "id" _) as [x1|]; simpl; [|done].
  destruct (model_field str_validator user "google_id" None) as [x2|] eqn:Hg;
    simpl; [|done].
  destruct (model_field str_validator user "email" None) as [x3|];
    simpl; [|done].
  destruct (model_field str_validator user "name" None) as [x4|];
    simpl; [|done].
  destruct (model_field str_validator user "picture" _) as [x5|];
    simpl; [|done].
  destruct (model_field str_validator user "about_me" _) as [x6|];
    simpl; [|done].
  destruct (model_field (optional int_validator) user "age" _) as [x7|];
    simpl; [|done].
  destruct (model_field datetime_validator user "created_at" _) as [x8|];
    simpl; [|done].
  destruct (model_field datetime_validator user "last_login" _) as [x9|];
    simpl; [|done].
  intros [= <-]. simpl.
  by destruct (model_field_str _ _ _ _ Hg) as [?|[_ ?]].
Qed.

Lemma of_dict_null_name dflt (user : dict) :
  user !! "name" = Some VNone ->
  UserProfile.of_dict dflt user
  = inl (ValidationError "validation errors for UserProfile").
Proof.
  intros Hn. unfold UserProfile.of_dict.
  destruct (model_field str_validator user "id" _) as [x1|]; simpl; [|done].
  destruct (model_field str_validator user "google_id" None) as [x2|];
    simpl; [|done].
  destruct (model_field str_validator user "email" None) as [x3|];
    simpl; [|done].
  assert (model_field str_validator user "name" None = None) as ->
    by (unfold model_field; by rewrite Hn).
  done.
Qed.

Lemma subject_query_eq (v : value) (s : string) (user : dict) :
  doc_matches (bson_doc {[ "google_id" := v ]}) user ->
  user !! "google_id" = Some (VStr s) ->
  v = VStr s.
Proof.
  intros Hm Hg. specialize (Hm "google_id" (bson_value v)).
  rewrite bson_doc_lookup, lookup_singleton_eq in Hm.
  specialize (Hm eq_refl). rewrite Hg in Hm.
  destruct v; simpl in Hm; [destruct Hm as [Hm|Hm]|..]; congruence.
Qed.

Lemma find_one_matches (q : dict) (coll : collection) d :
  find_one q coll = Some d ->
  exists i, list_find (doc_matches (bson_doc q)) coll = Some (i, d).
Proof.
  unfold find_one. destruct (list_find _ coll) as [[i d']|]; [|done].
  intros [= ->]. by exists i.
Qed.

(** After an update that leaves the fields of the query alone, the query
    selects the updated document. *)
Lemma find_one_update_one_same (q upd : dict) (coll : collection) d :
  (forall k, is_Some (q !! k) -> upd !! k = None) ->
  find_one q coll = Some d ->
  exists i,
    coll !! i = Some d /\
    update_one q upd false coll = <[i := bson_doc upd ∪ d]> coll /\
    find_one q (<[i := bson_doc upd ∪ d]> coll) = Some (bson_doc upd ∪ d).
Proof.
  intros Hq [i Hf]%find_one_matches. exists i.
  unfold update_one, find_one. rewrite Hf.
  apply list_find_Some in Hf as (Hi & Hd & Hlt). split_and!; [done..|].
  erewrite (proj2 (list_find_Some _ _ i _)); [done|]. split_and!.
  - apply list_lookup_insert_eq. by eapply lookup_lt_Some.
  - intros k v Hk. rewrite set_fields_frame; [by apply Hd|].
    apply Hq. rewrite bson_doc_lookup in Hk.
    destruct (q !! k); [by eexists|done].
  - intros j y Hj Hji. rewrite list_lookup_insert_ne in Hj by lia. eauto.
Qed.

(** The document behind an authenticated caller. *)
Lemma current_user_document env authorization db u :
  fst (get_current_user SECRET_KEY env authorization db) = inr u ->
  exists h token payload user,
    authorization = Some h /\
    startswith h "Bearer " = true /\
    split " " h !! 1%nat = Some token /\
    verify_token SECRET_KEY token (jwt_now env) = inr payload /\
    get_default payload "sub" VNone = VStr (UserProfile.google_id u) /\
    find_one {[ "google_id" := VStr (UserProfile.google_id u) ]} db
      = Some user /\
    UserProfile.of_dict (dependency_factories env) user = inr u.
Proof.
  destruct (get_current_user _ _ _ db) as [r db1] eqn:Hg. simpl.
  intros ->.
  destruct (get_current_user_inv SECRET_KEY _ _ _ _ _ Hg)
    as (h & token & payload & user & -> & Hs & Ht & Hv & Hf & Hof & _).
  exists h, token, payload, user.
  pose proof (of_dict_google_id _ _ _ Hof) as Hgid.
  destruct (find_one_matches _ _ _ Hf) as [i Hfind].
  apply list_find_Some in Hfind as (_ & Hm & _).
  pose proof (subject_query_eq _ _ _ Hm Hgid) as Hsub.
  rewrite Hsub in Hf. by split_and!.
Qed.

Lemma of_body_fields (body : dict) profile_update :
  UserProfileUpdate.of_body (Some body) = Some profile_update ->
  UserProfileUpdate.given str_validator body "name"
    = Some (UserProfileUpdate.name profile_update) /\
  UserProfileUpdate.given str_validator body "about_me"
    = Some (UserProfileUpdate.about_me profile_update) /\
  UserProfileUpdate.given int_validator body "age"
    = Some (UserProfileUpdate.age profile_update).
Proof.
  unfold UserProfileUpdate.of_body. simpl.
  destruct (UserProfileUpdate.given str_validator body "name") as [x|];
    simpl; [|done].
  destruct (UserProfileUpdate.given str_validator body "about_me") as [y|];
    simpl; [|done].
  destruct (UserProfileUpdate.given int_validator body "age") as [z|];
    simpl; [|done].
  by intros [= <-].
Qed.

Lemma given_validated {A} (validator : value -> option A) (inj : A -> value)
    (body : dict) k f :
  UserProfileUpdate.given validator body k = Some f ->
  match f with
  | Some o => Some (from_option inj VNone o)
  | None => None
  end = body !! k ≫= fun v => from_option inj VNone <$> optional validator v.
Proof.
  unfold UserProfileUpdate.given. destruct (body !! k) as [v|]; simpl.
  - destruct (optional validator v) as [o|]; simpl; [|done].
    by intros [= <-].
  - by intros [= <-].
Qed.

Lemma dict_exclude_unset_lookup (u : UserProfileUpdate.t) :
  UserProfileUpdate.dict_exclude_unset u !! "name"
    = match UserProfileUpdate.name u with
      | Some o => Some (from_option VStr VNone o)
      | None => None
      end /\
  UserProfileUpdate.dict_exclude_unset u !! "about_me"
    = match UserProfileUpdate.about_me u with
      | Some o => Some (from_option VStr VNone o)
      | None => None
      end /\
  UserProfileUpdate.dict_exclude_unset u !! "age"
    = match UserProfileUpdate.age u with
      | Some o => Some (from_option VInt VNone o)
      | None => None
      end.
Proof.
  unfold UserProfileUpdate.dict_exclude_unset, UserProfileUpdate.put.
  destruct (UserProfileUpdate.name u), (UserProfileUpdate.about_me u),
    (UserProfileUpdate.age u);
    split_and!;
    rewrite ?lookup_insert_eq, ?lookup_insert_ne by done;
    rewrite ?lookup_insert_eq, ?lookup_insert_ne by done;
    by rewrite ?lookup_insert_eq, ?lookup_empty.
Qed.

(** The fields that an update sets are the fields of the body among
    [name], [about_me] and [age], each with its validated value. *)
Lemma update_data_lookup (body : dict) profile_update k :
  UserProfileUpdate.of_body (Some body) = Some profile_update ->
  UserProfileUpdate.dict_exclude_unset profile_update !! k
  = if decide (k ∈ profile_fields) then body !! k ≫= validated k else None.
Proof.
  intros (Hn & Ha & Hg)%of_body_fields.
  destruct (dict_exclude_unset_lookup profile_update) as (Ln & La & Lg).
  destruct (decide (k ∈ profile_fields)) as [Hk|Hk];
    [|by apply dict_exclude_unset_keys].
  unfold profile_fields in Hk.
  apply elem_of_cons in Hk as [->|Hk];
    [rewrite Ln; by apply given_validated|].
  apply elem_of_cons in Hk as [->|Hk];
    [rewrite La; by apply given_validated|].
  apply elem_of_cons in Hk as [->|Hk];
    [rewrite Lg; by apply given_validated|].
  by apply elem_of_nil in Hk.
Qed.

(** Of the fields that an update sets, only the age can be beyond what
    the driver encodes. *)
Lemma update_data_encodable (u : UserProfileUpdate.t) :
  bson_encodable_doc (UserProfileUpdate.dict_exclude_unset u) <->
  age_fits (UserProfileUpdate.dict_exclude_unset u).
Proof.
  unfold age_fits. split.
  - intros H.
    destruct (_ !! "age") as [[| |n| | |]|] eqn:Hn; try done.
    by apply (H "age" (VInt n)).
  - intros H k v Hk.
    destruct (dict_exclude_unset_lookup u) as (Ln & La & Lg).
    destruct (decide (k = "age")) as [->|Hage].
    { rewrite Hk in H. by destruct v. }
    destruct (decide (k = "name")) as [->|Hname].
    { rewrite Ln in Hk.
      destruct (UserProfileUpdate.name u) as [[?|]|]; by simplify_eq. }
    destruct (decide (k = "about_me")) as [->|Habout].
    { rewrite La in Hk.
      destruct (UserProfileUpdate.about_me u) as [[?|]|]; by simplify_eq. }
    rewrite dict_exclude_unset_keys in Hk; [done|].
    repeat (apply not_elem_of_cons; split; [done|]). apply not_elem_of_nil.
Qed.

Lemma bson_update_data (u : UserProfileUpdate.t) :
  bson_doc (UserProfileUpdate.dict_exclude_unset u)
  = UserProfileUpdate.dict_exclude_unset u.
Proof.
  unfold UserProfileUpdate.dict_exclude_unset, UserProfileUpdate.put, bson_doc.
  destruct (UserProfileUpdate.name u) as [[?|]|],
    (UserProfileUpdate.about_me u) as [[?|]|],
    (UserProfileUpdate.age u) as [[?|]|];
    simpl; by rewrite ?fmap_insert, ?fmap_empty.
Qed.

Lemma get_current_user_pair env authorization db u :
  fst (get_current_user SECRET_KEY env authorization db) = inr u ->
  get_current_user SECRET_KEY env authorization db = (inr u, db).
Proof.
  pose proof (get_current_user_reads SECRET_KEY env authorization db) as Hdb.
  destruct (get_current_user _ _ _ db) as [r db1]. simpl in *. congruence.
Qed.

Lemma update_data_no_google_id (u : UserProfileUpdate.t) (s : string) k :
  is_Some (({[ "google_id" := VStr s ]} : dict) !! k) ->
  UserProfileUpdate.dict_exclude_unset u !! k = None.
Proof.
  intros [v Hk]. apply lookup_singleton_Some in Hk as [<- _].
  apply dict_exclude_unset_keys.
  repeat (apply not_elem_of_cons; split; [done|]). apply not_elem_of_nil.
Qed.

(** The store and the answer of an update by an authenticated caller. *)
Lemma update_user_profile_result dflt profile_update current_user db d :
  find_one {[ "google_id" := VStr (UserProfile.google_id current_user) ]} db
    = Some d ->
  let update_data := UserProfileUpdate.dict_exclude_unset profile_update in
  exists i,
    db !! i = Some d /\
    update_user_profile dflt profile_update current_user db
    = (if decide (update_data = ∅) then (inr current_user, db)
       else if decide (bson_encodable_doc update_data)
       then (UserProfile.of_dict dflt (update_data ∪ d),
             <[i := update_data ∪ d]> db)
       else (inl bson_overflow, db)) /\
    find_one {[ "google_id" := VStr (UserProfile.google_id current_user) ]}
      (<[i := update_data ∪ d]> db) = Some (update_data ∪ d).
Proof.
  intros Hf update_data.
  destruct (find_one_update_one_same _ update_data db d
              (update_data_no_google_id profile_update _) Hf)
    as (i & Hi & Hupd & Hfind).
  unfold update_data in Hupd, Hfind. rewrite bson_update_data in Hupd, Hfind.
  fold update_data in Hupd, Hfind.
  exists i. split_and!; [done| |done].
  rewrite update_user_profile_unfold. fold update_data.
  destruct (decide (update_data = ∅)) as [Heq|Hne]; [done|].
  destruct (decide (bson_encodable_doc update_data)); [|done].
  cbv zeta. by rewrite Hupd, Hfind.
Qed.

(** X8. An update by an authenticated caller is a partial merge into the
    caller's document: the fields to write are the fields of the body
    among [name], [about_me] and [age], each with its validated value.
    When there is none, nothing is written and the answer is the
    caller's profile as it was.  When the age is an integer beyond 8
    bytes, the driver raises, nothing is written and the request is
    answered 500.  Otherwise the fields are written into the caller's
    document, every other field of it and every other document stay,
    and the answer is the profile read back from the merged document. *)
Theorem profile_update_merges env authorization (body : dict) db
    current_user profile_update :
  fst (get_current_user SECRET_KEY env authorization db) = inr current_user ->
  UserProfileUpdate.of_body (Some body) = Some profile_update ->
  exists i d update_data,
    db !! i = Some d /\
    find_one {[ "google_id" := VStr (UserProfile.google_id current_user) ]} db
      = Some d /\
    (forall k,
       update_data !! k
       = if decide (k ∈ profile_fields) then body !! k ≫= validated k
         else None) /\
    put_auth_profile SECRET_KEY env authorization (body_json (Some body)) db
    = if decide (update_data = ∅) then (inr current_user, db)
      else if decide (age_fits update_data)
      then (UserProfile.of_dict (handler_factories env) (update_data ∪ d),
            <[i := update_data ∪ d]> db)
      else (inl (OverflowError "MongoDB can only handle up to 8-byte ints"),
            db).
Proof.
  intros Hu Hb.
  destruct (current_user_document _ _ _ _ Hu)
    as (h & token & payload & user & _ & _ & _ & _ & _ & Hf & _).
  destruct (update_user_profile_result (handler_factories env) profile_update
              current_user db user Hf) as (i & Hi & Hres & _).
  exists i, user, (UserProfileUpdate.dict_exclude_unset profile_update).
  split_and!; [done|done| |].
  - intros k. by apply update_data_lookup.
  - unfold put_auth_profile, read_body, bind.
    rewrite (get_current_user_pair _ _ _ _ Hu).
    unfold put_auth_profile_as. rewrite Hb, Hres.
    destruct (decide (_ = ∅)); [done|].
    pose proof (update_data_encodable profile_update) as Henc.
    destruct (decide (bson_encodable_doc _)) as [He|He];
      destruct (decide (age_fits _)) as [Ha|Ha];
      [done|by apply Henc in He|by apply Henc in Ha|done].
Qed.

Lemma verify_token_payload_unique token now now' payload payload' :
  verify_token SECRET_KEY token now = inr payload ->
  verify_token SECRET_KEY token now' = inr payload' ->
  payload = payload'.
Proof.
  intros [Hs _]%verify_token_decode%jwt_decode_payload.
  intros [Hs' _]%verify_token_decode%jwt_decode_payload.
  destruct Hs as (si & h & t & sg & Hl & _ & _ & _ & Hp).
  destruct Hs' as (si' & h' & t' & sg' & Hl' & _ & _ & _ & Hp').
  congruence.
Qed.

(** X9. A null name breaks the profile.  When an authenticated caller
    sends a body that is otherwise valid, holds no age beyond 8 bytes,
    and gives [name] the value null, the update is written (the stored
    name becomes null) and the request is answered 500, because the
    document no longer validates as a profile; from then on every
    [GET /auth/me] with that header that the old store would have served
    is answered 500 as well. *)
Theorem null_name_breaks_profile env authorization (body : dict) db
    current_user profile_update :
  fst (get_current_user SECRET_KEY env authorization db) = inr current_user ->
  UserProfileUpdate.of_body (Some body) = Some profile_update ->
  body !! "name" = Some VNone ->
  (forall n, UserProfileUpdate.age profile_update = Some (Some n) ->
             - 2 ^ 63 <= n < 2 ^ 63) ->
  let r :=
    put_auth_profile SECRET_KEY env authorization (body_json (Some body)) db in
  status_of (fst r) = 500%nat /\
  (exists d,
     find_one {[ "google_id" := VStr (UserProfile.google_id current_user) ]}
       (snd r) = Some d /\
     d !! "name" = Some VNone) /\
  (forall env' u',
     fst (get_current_user SECRET_KEY env' authorization db) = inr u' ->
     status_of (fst (get_auth_me SECRET_KEY env' authorization (snd r)))
       = 500%nat).
Proof.
  intros Hu Hb Hname Hage.
  destruct (current_user_document _ _ _ _ Hu)
    as (h & token & payload & user & -> & Hs & Ht & Hv & Hsub & Hf & _).
  destruct (update_user_profile_result (handler_factories env) profile_update
              current_user db user Hf) as (i & Hi & Hres & Hfind).
  set (update_data := UserProfileUpdate.dict_exclude_unset profile_update) in *.
  assert (update_data !! "name" = Some VNone) as Hud.
  { unfold update_data. rewrite (update_data_lookup body) by done.
    rewrite decide_True by (apply elem_of_cons; by left).
    by rewrite Hname. }
  assert ((update_data ∪ user) !! "name" = Some VNone) as Hnew
    by (by apply lookup_union_Some_l).
  assert (update_data <> ∅) as Hne.
  { intros Heq. by rewrite Heq, lookup_empty in Hud. }
  assert (bson_encodable_doc update_data) as Henc.
  { apply update_data_encodable. unfold age_fits.
    destruct (dict_exclude_unset_lookup profile_update) as (_ & _ & Lg).
    rewrite Lg.
    destruct (UserProfileUpdate.age profile_update) as [[m|]|]; simpl;
      [by apply Hage|done..]. }
  assert (put_auth_profile SECRET_KEY env (Some h) (body_json (Some body)) db
          = (inl (ValidationError "validation errors for UserProfile"),
             <[i := update_data ∪ user]> db)) as Hput.
  { unfold put_auth_profile, read_body, bind.
    rewrite (get_current_user_pair _ _ _ _ Hu).
    unfold put_auth_profile_as. rewrite Hb, Hres.
    rewrite decide_False by done. rewrite decide_True by done.
    by rewrite of_dict_null_name. }
  cbv zeta. rewrite Hput. cbn [fst snd]. split_and!.
  - done.
  - by exists (update_data ∪ user).
  - intros env' u' Hu'.
    destruct (current_user_document _ _ _ _ Hu')
      as (h' & token' & payload' & user' & [= <-] & _ & Ht' & Hv' & Hsub'
          & _ & _).
    rewrite Ht in Ht'. injection Ht' as <-.
    pose proof (verify_token_payload_unique _ _ _ _ _ Hv Hv') as <-.
    unfold get_auth_me, bind.
    rewrite (get_current_user_bearer SECRET_KEY env' h token _ Hs Ht).
    rewrite Hv', Hsub, Hfind.
    by rewrite of_dict_null_name.
Qed.

End UpdateFacts.

(** ** Posting to the status log and reading it back *)

Lemma create_status_check_valid fresh (input : dict) c db :
  input !! "client_name" = Some (VStr c) ->
  create_status_check fresh (Some input) db
  = (inr (StatusCheck.mk (fresh_uuid4 fresh) c (fresh_utcnow fresh)),
     (db ++ [status_doc (fresh, c)])%list).
Proof.
  intros Hc. unfold create_status_check, model_field. simpl. by rewrite Hc.
Qed.

(** X11. The round trip through the status log.  A post with a string
    client name answers with the new record and appends it; a read that
    follows returns the earlier records and then the new one, with its
    timestamp cut to milliseconds, as long as fewer than 1000 records
    were there before; from the 1000th on the new record is stored but
    never read back. *)
Theorem post_then_get fresh reqs f (input : dict) c :
  input !! "client_name" = Some (VStr c) ->
  let r := create_status_check f (Some input) (post_all reqs) in
  fst r = inr (StatusCheck.mk (fresh_uuid4 f) c (fresh_utcnow f)) /\
  snd r = post_all (reqs ++ [(f, c)]) /\
  fst (get_status_checks fresh (snd r))
  = inr (if decide (length reqs < 1000)%nat
         then (stored_status <$> reqs) ++ [stored_status (f, c)]
         else stored_status <$> take 1000 reqs)%list.
Proof.
  intros Hc. cbv zeta. rewrite (create_status_check_valid f input c _ Hc).
  cbn [fst snd].
  assert ((post_all reqs ++ [status_doc (f, c)])%list
          = post_all (reqs ++ [(f, c)])) as ->.
  { by rewrite !post_all_docs, fmap_app. }
  split_and!; [done..|].
  unfold get_status_checks, find_to_list.
  rewrite post_all_docs, <- fmap_take, status_models_stored. cbn [fst].
  f_equal. destruct (decide (length reqs < 1000)%nat).
  - rewrite take_ge by (rewrite length_app; simpl; lia).
    by rewrite fmap_app.
  - by rewrite take_app_le by lia.
Qed.

(** X12. The status log is append-only: over any run of posts and reads,
    valid or not, with a body that can be read or not, the collection
    keeps every document it held, in place, and only grows at its end. *)
Theorem status_log_append_only reqs db :
  db `prefix_of` serve_status_all reqs db.
Proof.
  unfold serve_status_all. revert db.
  induction reqs as [|req reqs IH]; intros db; [done|].
  simpl. etrans; [|apply IH].
  destruct req as [fresh body|fresh]; simpl.
  - unfold post_status_check, read_body.
    destruct body as [| |input]; [done..|].
    unfold create_status_check.
    destruct (input ≫= _) as [c|]; simpl; [|done].
    unfold insert_one. by apply prefix_app_r.
  - unfold get_status_checks. by destruct (status_models _ _ _).
Qed.

(** ** The tokens of the test suite *)

Lemma timegm_minus_hour us : timegm (us - timedelta_hours 1) = timegm us - 3600.
Proof.
  unfold timegm, timedelta_hours.
  replace (us - 1 * 3600 * 1000000) with (us + (-3600) * 1000000) by lia.
  rewrite Z.div_add by done. lia.
Qed.

Lemma timegm_le us : timegm us * 1000000 <= us.
Proof.
  unfold timegm. rewrite Z.mul_comm. by apply Z.mul_div_le.
Qed.

Section TestFacts.
Context {codec : Codec}.
Variable SECRET_KEY : string.

Lemma verify_issued_expired claims now exp :
  codec_round_trips SECRET_KEY claims ->
  claims_pass claims now ->
  claims !! "exp" = Some (VInt exp) ->
  exp * 1000000 <= now ->
  verify_token SECRET_KEY
    (signing_input_of claims +:+ "." +:+
     base64url_encode (hmac_sha256 SECRET_KEY (signing_input_of claims))) now
  = inl (HTTPException 401 "Token expired").
Proof.
  intros Hrt Hp He Hnow.
  destruct (jwt_load_issued SECRET_KEY claims Hrt) as (text & Hl & Ht).
  unfold verify_token.
  rewrite (correctly_signed_decode SECRET_KEY _ claims now).
  - rewrite (claims_pass_validate claims now Hp).
    unfold validate_exp. rewrite He. simpl. by rewrite bool_decide_true.
  - eexists _, _, _, _. split_and!; [exact Hl|done..].
Qed.

Lemma create_test_token_spelled utcnow sub email name expired token :
  create_test_token SECRET_KEY utcnow sub email name expired = inr token ->
  let claims :=
    session_claims sub email name (test_token_exp utcnow expired) in
  token = signing_input_of claims +:+ "." +:+
          base64url_encode (hmac_sha256 SECRET_KEY (signing_input_of claims)).
Proof.
  unfold create_test_token, jwt_encode, test_token_exp, session_claims.
  destruct expired;
    rewrite insert_union_singleton_l,
      (jwt_payload_expiry _ _ (session_claims_serializable sub email name)).
  - rewrite timegm_minus_hour. rewrite decide_True.
    + by intros [= <-].
    + apply map_Forall_insert_2; [done|]. apply session_claims_serializable.
  - rewrite timegm_plus_hours. rewrite decide_True.
    + by intros [= <-].
    + apply map_Forall_insert_2; [done|]. apply session_claims_serializable.
Qed.

(** X13. What the server answers to the tokens of the test suite, when
    the suite signs with the server's secret and the server's clock is
    not behind the clock that made the token.  A token made with
    [expired=True] is answered 401 on [GET /auth/me] and on
    [PUT /auth/profile]; a token made with [expired=False], within its 24
    hours and for a subject without a document, is answered 404 on both;
    this whatever the PUT carries as a JSON body, or without a body,
    while a body that is no JSON is answered 422 with either token. *)
Theorem test_token_answers utcnow sub email name expired token env db :
  create_test_token SECRET_KEY utcnow sub email name expired = inr token ->
  codec_round_trips SECRET_KEY
    (session_claims sub email name (test_token_exp utcnow expired)) ->
  has_char " " token = false ->
  utcnow <= jwt_now env ->
  (expired = false ->
   jwt_now env < (timegm utcnow + 24 * 3600) * 1000000 /\
   find_one {[ "google_id" := VStr sub ]} db = None) ->
  let code := if expired then 401%nat else 404%nat in
  status_of (fst (get_auth_me SECRET_KEY env (Some ("Bearer " +:+ token)) db))
    = code /\
  (forall body,
     status_of (fst (put_auth_profile SECRET_KEY env
                       (Some ("Bearer " +:+ token)) (body_json body) db))
     = code) /\
  status_of (fst (put_auth_profile SECRET_KEY env
                    (Some ("Bearer " +:+ token)) body_malformed db))
    = 422%nat.
Proof.
  intros Hc Hrt Hsp Hclock Hvalid.
  apply create_test_token_spelled in Hc. cbv zeta in Hc.
  set (claims := session_claims sub email name
                   (test_token_exp utcnow expired)) in *.
  assert (exists detail,
            get_current_user SECRET_KEY env (Some ("Bearer " +:+ token)) db
            = (inl (HTTPException (if expired then 401 else 404)%nat detail), db))
    as [detail Hg].
  { rewrite (get_current_user_bearer SECRET_KEY env _ token);
      [|apply startswith_bearer|by rewrite split_bearer_field, split_no_sep].
    destruct expired.
    - rewrite Hc, (verify_issued_expired claims _ (timegm utcnow - 3600));
        [by eexists|done|apply session_claims_pass|done|].
      pose proof (timegm_le utcnow). lia.
    - destruct (Hvalid eq_refl) as [Hnow Hf].
      rewrite Hc, (verify_issued SECRET_KEY claims); [|done|].
      + assert (get_default claims "sub" VNone = VStr sub) as -> by done.
        rewrite Hf. by eexists.
      + rewrite (claims_pass_validate claims) by apply session_claims_pass.
        unfold validate_exp, claims, session_claims, test_token_exp.
        rewrite lookup_insert_eq. simpl.
        by rewrite bool_decide_false by lia. }
  cbv zeta. unfold get_auth_me, put_auth_profile, read_body, bind.
  rewrite Hg. by destruct expired.
Qed.

End TestFacts.

(** ** More concrete runs *)

(** X2 at the token of Alice's first login, five microseconds after the
    epoch. *)
Lemma verify_token_sound_witness :
  verify_token (codec:=Toy.codec) Toy.secret "H.E.mac-s3cret-3" 5
    = inr Toy.claims_exp /\
  correctly_signed (codec:=Toy.codec) Toy.secret "H.E.mac-s3cret-3"
    Toy.claims_exp /\
  5 < 86401 * 1000000.
Proof.
  assert (verify_token (codec:=Toy.codec) Toy.secret "H.E.mac-s3cret-3" 5
          = inr Toy.claims_exp) as H by (vm_compute; reflexivity).
  destruct (verify_token_sound (codec:=Toy.codec) Toy.secret _ _ _ H)
    as [Hs He].
  split_and!; [exact H|exact Hs|].
  apply He. vm_compute. reflexivity.
Defined.

(** X3 at Alice's token followed by more words. *)
Lemma bearer_token_is_second_field_witness :
  has_char " " "H.P.mac-s3cret-3" = false /\
  get_current_user (codec:=Toy.codec) Toy.secret (Toy.env 0)
    (Some "Bearer H.P.mac-s3cret-3 and more") [Toy.alice_doc]
  = get_current_user (codec:=Toy.codec) Toy.secret (Toy.env 0)
      (Some "Bearer H.P.mac-s3cret-3") [Toy.alice_doc].
Proof.
  assert (has_char " " "H.P.mac-s3cret-3" = false) as H by reflexivity.
  split; [exact H|].
  exact (proj1 (bearer_token_is_second_field (codec:=Toy.codec) Toy.secret
                  (Toy.env 0) [Toy.alice_doc] "H.P.mac-s3cret-3" "and more" H)).
Defined.

(** X4 at Alice's first login: the token of the redirect reads her new
    profile. *)
Lemma login_then_me_witness :
  provider_profile (Toy.login 1000000) "g-alice" "alice@example.com"
    "Alice" "" /\
  get_auth_me (codec:=Toy.codec) Toy.secret (Toy.env 5)
    (Some "Bearer H.E.mac-s3cret-3") (snd first_login)
  = (inr (UserProfile.mk "u-2" "g-alice" "alice@example.com" "Alice" "" ""
            None 1000000 1000000),
     snd first_login).
Proof.
  assert (provider_profile (Toy.login 1000000) "g-alice" "alice@example.com"
            "Alice" "") as Hp.
  { exists Toy.claims. split_and!; vm_compute; reflexivity. }
  split; [exact Hp|].
  apply (login_then_me (codec:=Toy.codec) Toy.secret None (Toy.login 1000000)
           [Toy.alice_doc] "H.E.mac-s3cret-3" (snd first_login) (Toy.env 5)
           "g-alice" "alice@example.com" "Alice" "" Hp).
  - vm_compute. reflexivity.
  - unfold codec_round_trips. split_and!; vm_compute; reflexivity.
  - reflexivity.
  - reflexivity.
Defined.

(** X6 at a callback whose provider profile has no email: the store, which
    holds Alice's profile, stays as it was. *)
Lemma failed_login_writes_nothing_witness :
  ~ login_succeeded None
      (fst (google_auth (codec:=Toy.codec) Toy.secret None
              login_without_email [Toy.alice_doc])) /\
  snd (google_auth (codec:=Toy.codec) Toy.secret None login_without_email
         [Toy.alice_doc]) = [Toy.alice_doc].
Proof.
  assert (~ login_succeeded None
            (fst (google_auth (codec:=Toy.codec) Toy.secret None
                    login_without_email [Toy.alice_doc]))) as Hn.
  { assert (fst (google_auth (codec:=Toy.codec) Toy.secret None
                   login_without_email [Toy.alice_doc])
            = inr (RedirectResponse (error_url None "'email'"))) as ->
      by (vm_compute; reflexivity).
    intros [token H].
    apply (callback_url_not_error_url None token "'email'"). congruence. }
  split; [exact Hn|].
  apply (failed_login_writes_nothing (codec:=Toy.codec) Toy.secret None
           login_without_email [Toy.alice_doc]); [|exact Hn].
  intros user_info H. injection H as <-.
  apply map_Forall_singleton. exact I.
Defined.

(** X7 over Alice's run from the empty store. *)
Lemma unique_subjects_preserved_witness :
  unique_subjects [] /\
  unique_subjects (serve_all (codec:=Toy.codec) Toy.secret None alice_run []).
Proof.
  assert (unique_subjects []) as H.
  { intros sub. unfold count_documents. simpl. lia. }
  split; [exact H|].
  exact (unique_subjects_preserved (codec:=Toy.codec) Toy.secret None
           alice_run [] H).
Defined.

(** X8 at Alice renaming herself: the body is merged into her document,
    the only one of the store. *)
Lemma profile_update_merges_witness :
  fst (get_current_user (codec:=Toy.codec) Toy.secret (Toy.env 0)
         (Some "Bearer H.P.mac-s3cret-3") [Toy.alice_doc]) = inr Toy.alice /\
  exists i d update_data,
    [Toy.alice_doc] !! i = Some d /\
    update_data !! "name" = Some (VStr "Bob") /\
    update_data !! "age" = None /\
    put_auth_profile (codec:=Toy.codec) Toy.secret (Toy.env 0)
      (Some "Bearer H.P.mac-s3cret-3")
      (body_json (Some {[ "name" := VStr "Bob" ]})) [Toy.alice_doc]
    = (UserProfile.of_dict (codec:=Toy.codec) Toy.dflt (update_data ∪ d),
       <[i := update_data ∪ d]> [Toy.alice_doc]).
Proof.
  assert (fst (get_current_user (codec:=Toy.codec) Toy.secret (Toy.env 0)
                 (Some "Bearer H.P.mac-s3cret-3") [Toy.alice_doc])
          = inr Toy.alice) as Hu by (vm_compute; reflexivity).
  split; [exact Hu|].
  assert (UserProfileUpdate.of_body (codec:=Toy.codec)
            (Some {[ "name" := VStr "Bob" ]})
          = Some (UserProfileUpdate.mk (Some (Some "Bob")) None None)) as Hb
    by (vm_compute; reflexivity).
  destruct (profile_update_merges (codec:=Toy.codec) Toy.secret (Toy.env 0)
              (Some "Bearer H.P.mac-s3cret-3") {[ "name" := VStr "Bob" ]}
              [Toy.alice_doc] Toy.alice _ Hu Hb)
    as (i & d & update_data & Hi & _ & Hk & Hput).
  assert (update_data !! "name" = Some (VStr "Bob")) as Hname.
  { rewrite Hk. vm_compute. reflexivity. }
  assert (update_data !! "age" = None) as Hage.
  { rewrite Hk. vm_compute. reflexivity. }
  exists i, d, update_data. split_and!; [exact Hi|exact Hname|exact Hage|].
  rewrite Hput. rewrite decide_False.
  - rewrite decide_True; [reflexivity|]. unfold age_fits. by rewrite Hage.
  - intros Heq. rewrite Heq, lookup_empty in Hname. discriminate Hname.
Defined.

(** An age of 2^63 is validated and then refused by the driver: the
    request is answered 500 and nothing is written, while 2^63 - 1 is
    stored. *)
Example age_beyond_eight_bytes :
  put_auth_profile (codec:=Toy.codec) Toy.secret (Toy.env 0)
    (Some "Bearer H.P.mac-s3cret-3")
    (body_json (Some {[ "age" := VInt 9223372036854775808 ]}))
    [Toy.alice_doc]
  = (inl (OverflowError "MongoDB can only handle up to 8-byte ints"),
     [Toy.alice_doc]) /\
  status_of (fst (put_auth_profile (codec:=Toy.codec) Toy.secret (Toy.env 0)
                    (Some "Bearer H.P.mac-s3cret-3")
                    (body_json (Some {[ "age" := VInt 9223372036854775808 ]}))
                    [Toy.alice_doc])) = 500%nat /\
  snd (put_auth_profile (codec:=Toy.codec) Toy.secret (Toy.env 0)
         (Some "Bearer H.P.mac-s3cret-3")
         (body_json (Some {[ "age" := VInt 9223372036854775807 ]}))
         [Toy.alice_doc])
  = [ <[ "age" := VInt 9223372036854775807 ]> Toy.alice_doc ].
Proof. split_and!; vm_compute; reflexivity. Qed.

(** X9 at Alice sending a null name. *)
Lemma null_name_breaks_profile_witness :
  fst (get_current_user (codec:=Toy.codec) Toy.secret (Toy.env 0)
         (Some "Bearer H.P.mac-s3cret-3") [Toy.alice_doc]) = inr Toy.alice /\
  status_of (fst (put_auth_profile (codec:=Toy.codec) Toy.secret (Toy.env 0)
                    (Some "Bearer H.P.mac-s3cret-3")
                    (body_json (Some {[ "name" := VNone ]})) [Toy.alice_doc]))
    = 500%nat /\
  status_of (fst (get_auth_me (codec:=Toy.codec) Toy.secret (Toy.env 7)
                    (Some "Bearer H.P.mac-s3cret-3")
                    (snd (put_auth_profile (codec:=Toy.codec) Toy.secret
                            (Toy.env 0) (Some "Bearer H.P.mac-s3cret-3")
                            (body_json (Some {[ "name" := VNone ]}))
                            [Toy.alice_doc]))))
    = 500%nat.
Proof.
  assert (forall now,
            fst (get_current_user (codec:=Toy.codec) Toy.secret (Toy.env now)
                   (Some "Bearer H.P.mac-s3cret-3") [Toy.alice_doc])
            = inr Toy.alice) as Hu by (intros now; vm_compute; reflexivity).
  split; [exact (Hu 0)|].
  assert (UserProfileUpdate.of_body (codec:=Toy.codec)
            (Some {[ "name" := VNone ]})
          = Some (UserProfileUpdate.mk (Some None) None None)) as Hb
    by (vm_compute; reflexivity).
  destruct (null_name_breaks_profile (codec:=Toy.codec) Toy.secret (Toy.env 0)
              (Some "Bearer H.P.mac-s3cret-3") {[ "name" := VNone ]}
              [Toy.alice_doc] Toy.alice _ (Hu 0) Hb eq_refl)
    as (Hput & _ & Hme).
  - intros n Hn. discriminate Hn.
  - split; [exact Hput|].
    exact (Hme (Toy.env 7) Toy.alice (Hu 7)).
Defined.

(** X11 at the first post to an empty log. *)
Lemma post_then_get_witness :
  ({[ "client_name" := VStr "probe" ]} : dict) !! "client_name"
    = Some (VStr "probe") /\
  fst (get_status_checks (fun _ => Toy.dflt)
         (snd (create_status_check Toy.dflt
                 (Some {[ "client_name" := VStr "probe" ]}) [])))
  = inr [StatusCheck.mk "00000000-0000-4000-8000-000000000000" "probe" 0].
Proof.
  assert (({[ "client_name" := VStr "probe" ]} : dict) !! "client_name"
          = Some (VStr "probe")) as H by reflexivity.
  split; [exact H|].
  exact (proj2 (proj2 (post_then_get (fun _ => Toy.dflt) [] Toy.dflt
                         {[ "client_name" := VStr "probe" ]} "probe" H))).
Defined.

(** X13 at a fresh token of the test suite for a subject that the store
    does not hold: both routes answer 404. *)
Lemma test_token_answers_witness :
  create_test_token (codec:=Toy.codec) Toy.secret 1000000 "g-alice"
    "alice@example.com" "Alice" false = inr "H.E.mac-s3cret-3" /\
  status_of (fst (get_auth_me (codec:=Toy.codec) Toy.secret (Toy.env 1000005)
                    (Some "Bearer H.E.mac-s3cret-3") [])) = 404%nat /\
  status_of (fst (put_auth_profile (codec:=Toy.codec) Toy.secret
                    (Toy.env 1000005) (Some "Bearer H.E.mac-s3cret-3")
                    (body_json (Some {[ "age" := VInt 30 ]})) [])) = 404%nat.
Proof.
  assert (create_test_token (codec:=Toy.codec) Toy.secret 1000000 "g-alice"
            "alice@example.com" "Alice" false = inr "H.E.mac-s3cret-3") as Ht
    by (vm_compute; reflexivity).
  split; [exact Ht|].
  destruct (test_token_answers (codec:=Toy.codec) Toy.secret 1000000
              "g-alice" "alice@example.com" "Alice" false "H.E.mac-s3cret-3"
              (Toy.env 1000005) [] Ht) as (Hme & Hput & _).
  - unfold codec_round_trips. split_and!; vm_compute; reflexivity.
  - reflexivity.
  - simpl. lia.
  - intros _. split; [vm_compute; reflexivity|reflexivity].
  - split; [exact Hme|exact (Hput _)].
Defined.
